(** * Freshness audit of yarn.build's plugin-build

    A shallow embedding of the audit engine of the [audit] command:
    [FreshnessDetector], [FreshnessCatalog], [WorkspaceAuditor],
    [ReportInspector] and [ProjectAuditor].

    Conventions of the embedding:
    - a JS [Map] is an association list in insertion order; [Map.set] on an
      existing key replaces the value in place, otherwise appends;
    - object identity ([===], [Array.includes], [Map] keys of object type) is
      a boolean equality on an abstract carrier;
    - a field of type [boolean | undefined] is an [option bool]; JS truthiness
      of such a field is [truthy];
    - [async]/[await] code runs sequentially (one call finishes before the
      next one starts), except for [FreshnessCatalog.isFresh], which is also
      given its await point so that overlapping calls can be studied, and
      except for the [sequential: false] branch of [ProjectAuditor.audit],
      where the audits are started without being awaited and only their
      synchronous part is followed;
    - recursion of [_auditDependencyWorkspace] carries a fuel counter; running
      out of fuel is [None], and the termination theorem shows that a bound
      computed from the project never runs out. *)

From Stdlib Require Import List Bool ZArith String Lia Arith Permutation.
Import ListNotations.

#[local] Set Warnings "-register-all".

(** ** JS [Map] as an association list *)
Module JsMap.
Section JsMap.
Context {K V : Type} (keqb : K -> K -> bool).

(** [Map.prototype.has] *)
Fixpoint has (m : list (K * V)) (k : K) : bool :=
match m with
| [] => false
| (k', _) :: m' => keqb k k' || has m' k
end.

(** [Map.prototype.get] *)
Fixpoint get (m : list (K * V)) (k : K) : option V :=
match m with
| [] => None
| (k', v) :: m' => if keqb k k' then Some v else get m' k
end.

(** [Map.prototype.set]: replace in place, or append a new entry. *)
Fixpoint set (m : list (K * V)) (k : K) (v : V) : list (K * V) :=
match m with
| [] => [(k, v)]
| (k', v') :: m' => if keqb k k' then (k', v) :: m' else (k', v') :: set m' k v
end.
End JsMap.
End JsMap.

(** JS truthiness of a [boolean | undefined] value. *)
Definition truthy (b : option bool) : bool :=
  match b with Some true => true | _ => false end.

(** ** [FreshnessDetector] *)
Module Detector.
Local Open Scope Z_scope.

(** What [xfs.statPromise] reports for a directory entry: a file with its
    [mtimeMs], a directory with its own entries, or anything else. *)
Inductive Entry : Type :=
| EFile (mtimeMs : Z)
| EDir (files : list Entry)
| EOther.

(** One iteration of the [for (const file of files)] loop of
    [_getLastModifiedForFolder], from the running maximum [lastModified]:
    a file raises it to its [mtimeMs], a directory to the result of the
    recursive call on that directory (which starts again from 0). *)
Fixpoint scanEntry (file : Entry) (lastModified : Z) {struct file} : Z :=
  match file with
  | EFile mtimeMs =>
      if mtimeMs >? lastModified then mtimeMs else lastModified
  | EDir files =>
      let folderLastModified :=
        fold_left (fun lm f => scanEntry f lm) files 0 in
      if folderLastModified >? lastModified
      then folderLastModified else lastModified
  | EOther => lastModified
  end.

(** [_getLastModifiedForFolder]: [let lastModified = 0], then the loop. *)
Definition getLastModifiedForFolder (files : list Entry) : Z :=
  fold_left (fun lm f => scanEntry f lm) files 0.

(** [FreshnessDetector.isFresh lastModified] on the entries of the
    workspace's [source] directory. *)
Definition isFresh (sourceDirectory : list Entry) (lastModified : Z) : bool :=
  let timeSource := getLastModifiedForFolder sourceDirectory in
  let changeAge := lastModified - timeSource in
  Z.eqb changeAge 0.

(** The [mtimeMs] of every file under an entry, at any depth, in the
    order the loop visits them. *)
Fixpoint entryTimes (file : Entry) : list Z :=
  match file with
  | EFile mtimeMs => [mtimeMs]
  | EDir files => flat_map entryTimes files
  | EOther => []
  end.

Definition fileTimes (files : list Entry) : list Z := flat_map entryTimes files.

End Detector.

(** ** The audit engine, over an abstract project model *)
Section Audit.

(** Workspaces and dependency descriptors, compared by identity. *)
Variable W : Type.
Variable W_eq_dec : forall x y : W, {x = y} + {x <> y}.
Variable D : Type.
Variable D_eq_dec : forall x y : D, {x = y} + {x <> y}.

Definition W_eqb (x y : W) : bool := if W_eq_dec x y then true else false.
Definition D_eqb (x y : D) : bool := if D_eq_dec x y then true else false.

(** The project model: [workspace.relativeCwd],
    [workspace.dependencies.values()],
    [project.tryWorkspaceByDescriptor] and the entries of each
    workspace's [source] directory as the file system has them. *)
Variable relativeCwd : W -> string.
Variable dependencies_of : W -> list D.
Variable tryWorkspaceByDescriptor : D -> option W.
Variable sourceDirectory : W -> list Detector.Entry.

(** The previous run log ([RunLog.get]) and the clock reading
    [new Date().getTime()]. *)
Record RunLogEntry : Type := mkRunLogEntry { lastModified : option Z }.
Variable previousState : option (string -> option RunLogEntry).
Variable now : Z.

(** [Array.prototype.includes] on the traversal path. *)
Definition includes (path : list D) (descriptor : D) : bool :=
  existsb (D_eqb descriptor) path.

(** *** [FreshnessCatalog] *)

(** [_catalog] is the cache; [oracleCalls] records, in order, every
    workspace for which a [FreshnessDetector] was run. *)
Record Catalog : Type := mkCatalog {
  _catalog : list (W * bool);
  oracleCalls : list W
}.

Definition emptyCatalog : Catalog := mkCatalog [] [].

(** [wasChecked]: a pure query of the cache. *)
Definition catalog_wasChecked (c : Catalog) (workspace : W) : bool :=
  JsMap.has W_eqb (_catalog c) workspace.

(** The baseline read by [isFresh] from the previous state. *)
Definition baselineOf (workspace : W) : Z :=
  let yarnBuildKey := (relativeCwd workspace ++ "#build")%string in
  match previousState with
  | Some runLog =>
      match runLog yarnBuildKey with
      | Some entry =>
          match lastModified entry with Some t => t | None => now end
      | None => now
      end
  | None => now
  end.

(** The state of one [isFresh] call: finished with a value, or suspended
    at [await detector.isFresh(lastModified)] with the detector's answer
    for [workspace] pending. *)
Inductive Pending : Type :=
| Ready (v : bool)
| Awaiting (workspace : W) (v : bool).

(** [isFresh] up to its await point: a cache hit returns at once;
    otherwise the detector is started. *)
Definition isFresh_start (c : Catalog) (workspace : W) : Catalog * Pending :=
  if catalog_wasChecked c workspace then
    (* [this._catalog.get(workspace) as boolean] *)
    (c, Ready (match JsMap.get W_eqb (_catalog c) workspace with
               | Some b => b | None => false end))
  else
    let v := Detector.isFresh (sourceDirectory workspace) (baselineOf workspace) in
    (mkCatalog (_catalog c) (oracleCalls c ++ [workspace]), Awaiting workspace v).

(** [isFresh] after its await point: [this._catalog.set(workspace, isFresh)]. *)
Definition isFresh_resume (c : Catalog) (workspace : W) (v : bool) : Catalog * bool :=
  (mkCatalog (JsMap.set W_eqb (_catalog c) workspace v) (oracleCalls c), v).

(** An [isFresh] call that runs to completion without another call
    in between. *)
Definition catalog_isFresh (c : Catalog) (workspace : W) : Catalog * bool :=
  match isFresh_start c workspace with
  | (c', Ready v) => (c', v)
  | (c', Awaiting w v) => isFresh_resume c' w v
  end.

(** Several [isFresh] calls on one catalog, each one finished before the
    next starts; the results in call order. *)
Fixpoint catalog_run (c : Catalog) (ws : list W) : Catalog * list bool :=
  match ws with
  | [] => (c, [])
  | w :: ws' =>
      let (c1, v) := catalog_isFresh c w in
      let (c2, vs) := catalog_run c1 ws' in
      (c2, v :: vs)
  end.

(** Overlapping calls: [Call w] starts a new call (task number = number
    of calls started so far), [Wake i] resumes task [i] if it is
    suspended. *)
Inductive Event : Type :=
| Call (workspace : W)
| Wake (task : nat).

Fixpoint schedule (c : Catalog) (tasks : list Pending) (evs : list Event)
  : Catalog * list Pending :=
  match evs with
  | [] => (c, tasks)
  | Call w :: evs' =>
      let (c1, p) := isFresh_start c w in
      schedule c1 (tasks ++ [p]) evs'
  | Wake i :: evs' =>
      match nth_error tasks i with
      | Some (Awaiting w v) =>
          let (c1, v1) := isFresh_resume c w v in
          schedule c1 (firstn i tasks ++ [Ready v1] ++ skipn (S i) tasks) evs'
      | _ => schedule c tasks evs'
      end
  end.

(** *** [WorkspaceReport] *)
Inductive Report : Type := mkReport {
  workspace : W;
  isFresh : option bool;
  loopsBackToParent : option bool;
  dependenciesWereFresh : option bool;
  filesWereFresh : option bool;
  fileFreshnessFromCache : option bool;
  dependencies : list (string * Report)
}.

(** [new WorkspaceReport(workspace)] *)
Definition newReport (w : W) : Report := mkReport w None None None None None [].

Definition set_isFresh (r : Report) (b : option bool) : Report :=
  mkReport (workspace r) b (loopsBackToParent r) (dependenciesWereFresh r)
    (filesWereFresh r) (fileFreshnessFromCache r) (dependencies r).
Definition set_loopsBackToParent (r : Report) (b : option bool) : Report :=
  mkReport (workspace r) (isFresh r) b (dependenciesWereFresh r)
    (filesWereFresh r) (fileFreshnessFromCache r) (dependencies r).
Definition set_dependenciesWereFresh (r : Report) (b : option bool) : Report :=
  mkReport (workspace r) (isFresh r) (loopsBackToParent r) b
    (filesWereFresh r) (fileFreshnessFromCache r) (dependencies r).
Definition set_filesWereFresh (r : Report) (b : option bool) : Report :=
  mkReport (workspace r) (isFresh r) (loopsBackToParent r)
    (dependenciesWereFresh r) b (fileFreshnessFromCache r) (dependencies r).
Definition set_fileFreshnessFromCache (r : Report) (b : option bool) : Report :=
  mkReport (workspace r) (isFresh r) (loopsBackToParent r)
    (dependenciesWereFresh r) (filesWereFresh r) b (dependencies r).
Definition set_dependencies (r : Report) (m : list (string * Report)) : Report :=
  mkReport (workspace r) (isFresh r) (loopsBackToParent r)
    (dependenciesWereFresh r) (filesWereFresh r) (fileFreshnessFromCache r) m.

(** *** [WorkspaceAuditor] *)

Definition AuditResult : Type := option (bool * Report * Catalog).

(** The [for (const descriptor of workspace.dependencies.values())] loop
    of [_auditDependencyWorkspace], with [recurse] the recursive call.
    The [path] array is shared and mutated by [push]/[pop] around the
    recursive call: here the callee receives [descriptor :: path] and the
    loop goes on with [path] (only membership is ever asked of it).
    [report.dependencies.set(workspace.relativeCwd, dependencyReport)]
    stores a reference to [dependencyReport], which is mutated afterwards
    and never touched again once its iteration ends: the entry is set to
    the child's final state at the end of the iteration, which is the
    same map (the key's position is the same, only [report.dependencies]
    holds that key). *)
Fixpoint auditLoop
    (recurse : W -> Catalog -> list D -> Report -> AuditResult)
    (workspace : W) (path : list D)
    (descriptors : list D) (report : Report) (freshnessCatalog : Catalog)
    : option (Report * Catalog) :=
  match descriptors with
  | [] => Some (report, freshnessCatalog)
  | descriptor :: descriptors' =>
      match tryWorkspaceByDescriptor descriptor with
      | None => auditLoop recurse workspace path descriptors' report freshnessCatalog
      | Some dependencyWorkspace =>
          let dependencyReport := newReport dependencyWorkspace in
          if includes path descriptor then
            let dependencyReport :=
              set_loopsBackToParent dependencyReport (Some true) in
            let report := set_dependencies report
              (JsMap.set String.eqb (dependencies report)
                 (relativeCwd workspace) dependencyReport) in
            auditLoop recurse workspace path descriptors' report freshnessCatalog
          else
            let dependencyReport :=
              set_loopsBackToParent dependencyReport (Some false) in
            match recurse dependencyWorkspace freshnessCatalog
                    (descriptor :: path) dependencyReport with
            | None => None
            | Some (isDependencyFresh, dependencyReport, freshnessCatalog) =>
                let dependencyReport := set_dependenciesWereFresh
                  dependencyReport (Some isDependencyFresh) in
                let dependencyReport := if isDependencyFresh then dependencyReport
                  else set_isFresh dependencyReport (Some false) in
                let report := if isDependencyFresh then report
                  else set_dependenciesWereFresh report (Some false) in
                let dependencyReport := set_fileFreshnessFromCache dependencyReport
                  (Some (catalog_wasChecked freshnessCatalog dependencyWorkspace)) in
                let (freshnessCatalog, fresh) :=
                  catalog_isFresh freshnessCatalog dependencyWorkspace in
                let dependencyReport :=
                  set_filesWereFresh dependencyReport (Some fresh) in
                let dependencyReport := if fresh then dependencyReport
                  else set_isFresh dependencyReport (Some false) in
                let report := if fresh then report
                  else set_dependenciesWereFresh report (Some false) in
                let report := set_dependencies report
                  (JsMap.set String.eqb (dependencies report)
                     (relativeCwd workspace) dependencyReport) in
                auditLoop recurse workspace path descriptors' report freshnessCatalog
            end
      end
  end.

(** [_auditDependencyWorkspace(workspace, freshnessCatalog, path, report)]:
    the boolean it returns, the report it mutated, and the catalog. *)
Fixpoint auditDependencyWorkspace (fuel : nat) (workspace : W)
    (freshnessCatalog : Catalog) (path : list D) (report : Report)
    : AuditResult :=
  match fuel with
  | O => None
  | S fuel' =>
      let report := set_isFresh report (Some true) in
      let report := set_fileFreshnessFromCache report
        (Some (catalog_wasChecked freshnessCatalog workspace)) in
      let (freshnessCatalog, fresh) := catalog_isFresh freshnessCatalog workspace in
      let report := set_filesWereFresh report (Some fresh) in
      let report := if fresh then report else set_isFresh report (Some false) in
      let report := set_dependenciesWereFresh report (Some true) in
      match auditLoop (auditDependencyWorkspace fuel') workspace path
              (dependencies_of workspace) report freshnessCatalog with
      | None => None
      | Some (report, freshnessCatalog) =>
          Some (truthy (dependenciesWereFresh report)
                && truthy (filesWereFresh report), report, freshnessCatalog)
      end
  end.

(** [WorkspaceAuditor.audit(freshnessCatalog)] for [workspace]. *)
Definition audit (fuel : nat) (workspace : W) (freshnessCatalog : Catalog)
    : option (Report * Catalog) :=
  match auditDependencyWorkspace fuel workspace freshnessCatalog []
          (newReport workspace) with
  | None => None
  | Some (workspaceIsFresh, report, freshnessCatalog) =>
      Some (set_isFresh report (Some workspaceIsFresh), freshnessCatalog)
  end.

(** *** [ReportInspector] *)

(** [_unrollWorkspaceReport]: the instructions it pushes, in order
    (a [BuildInstruction] is its workspace). *)
Fixpoint unrollWorkspaceReport (workspaceReport : Report) : list W :=
  if truthy (loopsBackToParent workspaceReport) then []
  else if truthy (isFresh workspaceReport) then []
  else if negb (truthy (dependenciesWereFresh workspaceReport)) then
    workspace workspaceReport ::
      (fix unrollAll (m : list (string * Report)) : list W :=
         match m with
         | [] => []
         | (_, dependencyReport) :: m' =>
             unrollWorkspaceReport dependencyReport ++ unrollAll m'
         end) (dependencies workspaceReport)
  else if negb (truthy (filesWereFresh workspaceReport)) then
    [workspace workspaceReport]
  else [].

(** [ProjectReport] is a [Map<Workspace, WorkspaceReport>]. *)
Definition ProjectReport : Type := list (W * Report).

(** [ReportInspector.unroll] *)
Definition unroll (projectReport : ProjectReport) : list W :=
  flat_map (fun p => unrollWorkspaceReport (snd p)) projectReport.

(** The answer a cache miss of [FreshnessCatalog.isFresh] computes for
    [workspace]: the detector run against the baseline of the run log. *)
Definition detectorVerdict (workspace : W) : bool :=
  Detector.isFresh (sourceDirectory workspace) (baselineOf workspace).

(** Every value held by the cache is the detector's verdict for its key. *)
Definition catalogSound (c : Catalog) : Prop :=
  forall w v, JsMap.get W_eqb (_catalog c) w = Some v -> v = detectorVerdict w.

(** [u] is [w] or is reached from [w] through a chain of dependency
    descriptors that [tryWorkspaceByDescriptor] resolves to workspaces. *)
Inductive reaches : W -> W -> Prop :=
| reaches_refl (w : W) : reaches w w
| reaches_step (w : W) (d : D) (dw u : W) :
    In d (dependencies_of w) -> tryWorkspaceByDescriptor d = Some dw ->
    reaches dw u -> reaches w u.

(** *** [ProjectAuditor] *)

(** [ProjectAuditor.forProjectPath], after [Project.find]: [project] is
    [projectFindResult.project] (its [workspaces] and [topLevelWorkspace]),
    [workspaceFound] is [projectFindResult.workspace].  [None] is the
    [throw new Error("unable to find project")]; otherwise the project
    and the targets the auditor is built with. *)
Definition forProjectPath (project : option (list W * W)) (workspaceFound : option W)
    : option (list W * W * list string) :=
  match project with
  | None => None
  | Some (projectWorkspaces, projectTopLevelWorkspace) =>
      let targets :=
        match workspaceFound with
        | Some found =>
            if W_eqb found projectTopLevelWorkspace
            then map relativeCwd projectWorkspaces
            else [relativeCwd found]
        | None => []
        end in
      Some (projectWorkspaces, projectTopLevelWorkspace, targets)
  end.

Variable workspaces : list W.
Variable topLevelWorkspace : W.

(** The first loop of [ProjectAuditor.audit] with [sequential: true],
    over a catalog whose previous state is the run log [previousState]:
    the audits the loop performs when no lookup of the previous state
    throws.  The code as shipped loads the project's configuration as the
    previous state instead; that run is [projectAuditor_audit] below. *)
Fixpoint auditWorkspaces (fuel : nat) (targets : list string) (ws : list W)
    (freshnessCatalog : Catalog) (pendingAudits : list (W * Report))
    : option (list (W * Report)) :=
  match ws with
  | [] => Some pendingAudits
  | w :: ws' =>
      if W_eqb w topLevelWorkspace then
        auditWorkspaces fuel targets ws' freshnessCatalog pendingAudits
      else if negb (existsb (String.eqb (relativeCwd w)) targets) then
        auditWorkspaces fuel targets ws' freshnessCatalog pendingAudits
      else
        match audit fuel w freshnessCatalog with
        | None => None
        | Some (report, freshnessCatalog) =>
            auditWorkspaces fuel targets ws' freshnessCatalog
              (JsMap.set W_eqb pendingAudits w report)
        end
  end.

(** [ProjectAuditor.audit] with [sequential: true] over a catalog loaded
    with the run log [previousState]: a fresh catalog, the audits, then
    the copy of [pendingAudits] into [reports]. *)
Definition projectAudit (fuel : nat) (targets : list string)
    : option ProjectReport :=
  match auditWorkspaces fuel targets workspaces emptyCatalog [] with
  | None => None
  | Some pendingAudits =>
      Some (fold_left (fun reports p => JsMap.set W_eqb reports (fst p) (snd p))
              pendingAudits [])
  end.

End Audit.

Arguments mkRunLogEntry : clear implicits.
Arguments mkCatalog {W}.
Arguments _catalog {W}.
Arguments oracleCalls {W}.
Arguments emptyCatalog {W}.
Arguments Ready {W}.
Arguments Awaiting {W}.
Arguments Call {W}.
Arguments Wake {W}.
Arguments mkReport {W}.
Arguments workspace {W}.
Arguments isFresh {W}.
Arguments loopsBackToParent {W}.
Arguments dependenciesWereFresh {W}.
Arguments filesWereFresh {W}.
Arguments fileFreshnessFromCache {W}.
Arguments dependencies {W}.
Arguments newReport {W}.
Arguments set_isFresh {W}.
Arguments set_loopsBackToParent {W}.
Arguments set_dependenciesWereFresh {W}.
Arguments set_filesWereFresh {W}.
Arguments set_fileFreshnessFromCache {W}.
Arguments set_dependencies {W}.
Arguments unrollWorkspaceReport {W}.
Arguments unroll {W}.
Arguments detectorVerdict {W}.
Arguments catalogSound {W}.
Arguments reaches {W D}.
Arguments forProjectPath {W}.

(** *** [ProjectAuditor.audit] as shipped

    [ProjectAuditor.audit] hands [this._project.configuration] to
    [freshnessCatalog.loadPreviousState], so the catalog's [_previousState]
    is the project's [Configuration].  Its [get] (in [@yarnpkg/core])
    returns the value of a declared setting and throws a [UsageError]
    ("Invalid configuration key") for any other key.  A configuration is
    the map of its declared settings; [isFresh] sees a setting's value
    through JS truthiness and its [lastModified] property: [None] for a
    falsy value, [Some entry] otherwise.  [this._project.restoreInstallState()]
    is taken to succeed. *)

(** How a run ends: with a value, with a thrown error, out of fuel, or
    (with [sequential: false]) with suspended tasks whose interleaving
    this model does not follow. *)
Inductive Outcome (A : Type) : Type :=
| Returns (a : A)
| Throws
| OutOfFuel
| Interleaved.

Arguments Returns {A}.
Arguments Throws {A}.
Arguments OutOfFuel {A}.
Arguments Interleaved {A}.

(** [await] on an outcome: a thrown error or an exhausted fuel counter
    goes up unchanged. *)
Definition bindO {A B : Type} (m : Outcome A) (f : A -> Outcome B) : Outcome B :=
  match m with
  | Returns a => f a
  | Throws => Throws
  | OutOfFuel => OutOfFuel
  | Interleaved => Interleaved
  end.

(** The state of a task after the synchronous part of
    [workspaceAuditor.audit(freshnessCatalog)]: its promise is already
    rejected, or it is suspended at an [await]. *)
Inductive Started : Type :=
| Rejected
| Suspended.

Section ConfiguredAudit.
Variable W : Type.
Variable W_eq_dec : forall x y : W, {x = y} + {x <> y}.
Variable D : Type.
Variable D_eq_dec : forall x y : D, {x = y} + {x <> y}.
Variable relativeCwd : W -> string.
Variable dependencies_of : W -> list D.
Variable tryWorkspaceByDescriptor : D -> option W.
Variable sourceDirectory : W -> list Detector.Entry.
Variable now : Z.

(** The declared settings of a [Configuration] and their values. *)
Definition Configuration : Type := list (string * option RunLogEntry).

(** [configuration.get(key)]; [None] is the thrown [UsageError]. *)
Definition configuration_get (configuration : Configuration) (key : string)
    : option (option RunLogEntry) :=
  JsMap.get String.eqb configuration key.

(** [configuration.get] read as a [RunLog.get] on declared keys. *)
Definition configurationRunLog (configuration : Configuration)
    : string -> option RunLogEntry :=
  fun key => match configuration_get configuration key with
             | Some v => v
             | None => None
             end.

(** [FreshnessCatalog.isFresh] on a catalog whose previous state is
    [configuration]; [None] is the thrown error.  A cache hit returns the
    cached value; otherwise [this._previousState && this._previousState.get(yarnBuildKey)]
    runs (a [Configuration] object is truthy), which throws for an
    undeclared key; for a declared key the call goes on as [catalog_isFresh]
    with the setting's value as the log entry. *)
Definition catalog_isFresh_cfg (configuration : Configuration) (c : Catalog W)
    (workspace : W) : option (Catalog W * bool) :=
  if catalog_wasChecked W W_eq_dec c workspace then
    Some (catalog_isFresh W W_eq_dec relativeCwd sourceDirectory
            (Some (configurationRunLog configuration)) now c workspace)
  else
    match configuration_get configuration (relativeCwd workspace ++ "#build") with
    | None => None
    | Some _ =>
        Some (catalog_isFresh W W_eq_dec relativeCwd sourceDirectory
                (Some (configurationRunLog configuration)) now c workspace)
    end.

Definition AuditOutcome : Type := Outcome (bool * Report W * Catalog W).

(** The loop of [_auditDependencyWorkspace] over that catalog: the same
    steps as [auditLoop], where each [await] of the recursive call or of
    [freshnessCatalog.isFresh] passes a thrown error up. *)
Fixpoint auditLoopC (configuration : Configuration)
    (recurse : W -> Catalog W -> list D -> Report W -> AuditOutcome)
    (workspace : W) (path : list D)
    (descriptors : list D) (report : Report W) (freshnessCatalog : Catalog W)
    : Outcome (Report W * Catalog W) :=
  match descriptors with
  | [] => Returns (report, freshnessCatalog)
  | descriptor :: descriptors' =>
      match tryWorkspaceByDescriptor descriptor with
      | None =>
          auditLoopC configuration recurse workspace path descriptors' report
            freshnessCatalog
      | Some dependencyWorkspace =>
          let dependencyReport := newReport dependencyWorkspace in
          if includes D D_eq_dec path descriptor then
            let dependencyReport :=
              set_loopsBackToParent dependencyReport (Some true) in
            let report := set_dependencies report
              (JsMap.set String.eqb (dependencies report)
                 (relativeCwd workspace) dependencyReport) in
            auditLoopC configuration recurse workspace path descriptors' report
              freshnessCatalog
          else
            let dependencyReport :=
              set_loopsBackToParent dependencyReport (Some false) in
            bindO (recurse dependencyWorkspace freshnessCatalog
                     (descriptor :: path) dependencyReport)
              (fun '(isDependencyFresh, dependencyReport, freshnessCatalog) =>
                let dependencyReport := set_dependenciesWereFresh
                  dependencyReport (Some isDependencyFresh) in
                let dependencyReport := if isDependencyFresh then dependencyReport
                  else set_isFresh dependencyReport (Some false) in
                let report := if isDependencyFresh then report
                  else set_dependenciesWereFresh report (Some false) in
                let dependencyReport := set_fileFreshnessFromCache dependencyReport
                  (Some (catalog_wasChecked W W_eq_dec freshnessCatalog dependencyWorkspace)) in
                match catalog_isFresh_cfg configuration freshnessCatalog
                        dependencyWorkspace with
                | None => Throws
                | Some (freshnessCatalog, fresh) =>
                    let dependencyReport :=
                      set_filesWereFresh dependencyReport (Some fresh) in
                    let dependencyReport := if fresh then dependencyReport
                      else set_isFresh dependencyReport (Some false) in
                    let report := if fresh then report
                      else set_dependenciesWereFresh report (Some false) in
                    let report := set_dependencies report
                      (JsMap.set String.eqb (dependencies report)
                         (relativeCwd workspace) dependencyReport) in
                    auditLoopC configuration recurse workspace path descriptors'
                      report freshnessCatalog
                end)
      end
  end.

(** [_auditDependencyWorkspace] over that catalog. *)
Fixpoint auditDependencyWorkspaceC (configuration : Configuration) (fuel : nat)
    (workspace : W) (freshnessCatalog : Catalog W) (path : list D)
    (report : Report W) : AuditOutcome :=
  match fuel with
  | O => OutOfFuel
  | S fuel' =>
      let report := set_isFresh report (Some true) in
      let report := set_fileFreshnessFromCache report
        (Some (catalog_wasChecked W W_eq_dec freshnessCatalog workspace)) in
      match catalog_isFresh_cfg configuration freshnessCatalog workspace with
      | None => Throws
      | Some (freshnessCatalog, fresh) =>
          let report := set_filesWereFresh report (Some fresh) in
          let report := if fresh then report else set_isFresh report (Some false) in
          let report := set_dependenciesWereFresh report (Some true) in
          bindO (auditLoopC configuration (auditDependencyWorkspaceC configuration fuel')
                   workspace path (dependencies_of workspace) report freshnessCatalog)
            (fun '(report, freshnessCatalog) =>
               Returns (truthy (dependenciesWereFresh report)
                        && truthy (filesWereFresh report), report, freshnessCatalog))
      end
  end.

(** [WorkspaceAuditor.audit(freshnessCatalog)] over that catalog. *)
Definition auditC (configuration : Configuration) (fuel : nat) (workspace : W)
    (freshnessCatalog : Catalog W) : Outcome (Report W * Catalog W) :=
  bindO (auditDependencyWorkspaceC configuration fuel workspace freshnessCatalog []
           (newReport workspace))
    (fun '(workspaceIsFresh, report, freshnessCatalog) =>
       Returns (set_isFresh report (Some workspaceIsFresh), freshnessCatalog)).

(** The synchronous part of [workspaceAuditor.audit(freshnessCatalog)]:
    [_auditDependencyWorkspace] runs to [await freshnessCatalog.isFresh(workspace)],
    and [isFresh] runs to its return (a cache hit), to its throw, or to
    [await detector.isFresh(lastModified)] with the detector started. *)
Definition auditStart (configuration : Configuration) (freshnessCatalog : Catalog W)
    (workspace : W) : Catalog W * Started :=
  if catalog_wasChecked W W_eq_dec freshnessCatalog workspace then
    (freshnessCatalog, Suspended)
  else
    match configuration_get configuration (relativeCwd workspace ++ "#build") with
    | None => (freshnessCatalog, Rejected)
    | Some _ =>
        (fst (isFresh_start W W_eq_dec relativeCwd sourceDirectory
                (Some (configurationRunLog configuration)) now freshnessCatalog workspace),
         Suspended)
    end.

Section Project.
Variable configuration : Configuration.
Variable topLevelWorkspace : W.

(** Whether the first loop of [ProjectAuditor.audit] audits [w]. *)
Definition isTarget (targets : list string) (w : W) : bool :=
  negb (W_eqb W W_eq_dec w topLevelWorkspace)
  && existsb (String.eqb (relativeCwd w)) targets.

(** The first loop of [ProjectAuditor.audit] with [sequential: true]:
    each audit is awaited before the next workspace is looked at. *)
Fixpoint auditSequential (fuel : nat) (targets : list string) (ws : list W)
    (freshnessCatalog : Catalog W) (pendingAudits : list (W * Report W))
    : Outcome (list (W * Report W)) :=
  match ws with
  | [] => Returns pendingAudits
  | w :: ws' =>
      if W_eqb W W_eq_dec w topLevelWorkspace then
        auditSequential fuel targets ws' freshnessCatalog pendingAudits
      else if negb (existsb (String.eqb (relativeCwd w)) targets) then
        auditSequential fuel targets ws' freshnessCatalog pendingAudits
      else
        bindO (auditC configuration fuel w freshnessCatalog)
          (fun '(report, freshnessCatalog) =>
             auditSequential fuel targets ws' freshnessCatalog
               (JsMap.set (W_eqb W W_eq_dec) pendingAudits w report))
  end.

(** The first loop of [ProjectAuditor.audit] with [sequential: false]:
    every audit is started, none is awaited, so the loop runs without
    yielding and each audit runs only its synchronous part. *)
Fixpoint startAudits (targets : list string) (ws : list W)
    (freshnessCatalog : Catalog W) (pendingAudits : list (W * Started))
    : Catalog W * list (W * Started) :=
  match ws with
  | [] => (freshnessCatalog, pendingAudits)
  | w :: ws' =>
      if W_eqb W W_eq_dec w topLevelWorkspace then
        startAudits targets ws' freshnessCatalog pendingAudits
      else if negb (existsb (String.eqb (relativeCwd w)) targets) then
        startAudits targets ws' freshnessCatalog pendingAudits
      else
        let (freshnessCatalog, pendingAudit) := auditStart configuration freshnessCatalog w in
        startAudits targets ws' freshnessCatalog
          (JsMap.set (W_eqb W W_eq_dec) pendingAudits w pendingAudit)
  end.

(** [ProjectAuditor.audit(options)] with [this._project.configuration] as
    the previous state: a new catalog, the first loop, then the second
    loop, which awaits the pending audits in insertion order and copies
    them into [reports].  With [sequential: false] the second loop throws
    at once if the first pending audit was rejected; if it is suspended,
    the run goes on in interleaved tasks ([Interleaved]). *)
Definition projectAuditor_audit (sequential : bool) (workspaces : list W)
    (fuel : nat) (targets : list string) : Outcome (ProjectReport W) :=
  if sequential then
    bindO (auditSequential fuel targets workspaces emptyCatalog [])
      (fun pendingAudits =>
         Returns (fold_left (fun reports p =>
                    JsMap.set (W_eqb W W_eq_dec) reports (fst p) (snd p))
                    pendingAudits []))
  else
    match snd (startAudits targets workspaces emptyCatalog []) with
    | [] => Returns []
    | (_, Rejected) :: _ => Throws
    | (_, Suspended) :: _ => Interleaved
    end.
End Project.
End ConfiguredAudit.

(** ** Predicates over finished report trees *)
Section Trees.
Context {W : Type}.

(** [node] occurs in the tree rooted at [r], reached through the
    [dependencies] maps. *)
Inductive InTree (node : Report W) : Report W -> Prop :=
| InTree_here : InTree node node
| InTree_child (r : Report W) (key : string) (child : Report W) :
    In (key, child) (dependencies r) -> InTree node child -> InTree node r.

(** Every node of the tree satisfies [P]. *)
Fixpoint allReports (P : Report W -> bool) (r : Report W) : bool :=
  P r &&
  (fix allChildren (m : list (string * Report W)) : bool :=
     match m with
     | [] => true
     | (_, child) :: m' => allReports P child && allChildren m'
     end) (dependencies r).

(** A non-cycle node is fully processed and
    [isFresh == (dependenciesWereFresh && filesWereFresh)]. *)
Definition consistentNode (r : Report W) : bool :=
  if truthy (loopsBackToParent r) then true
  else match isFresh r, dependenciesWereFresh r, filesWereFresh r with
       | Some a, Some b, Some c => Bool.eqb a (b && c)
       | _, _, _ => false
       end.

(** A cycle node has every other field undefined and no dependencies. *)
Definition cycleLeafNode (r : Report W) : bool :=
  if truthy (loopsBackToParent r) then
    match isFresh r, dependenciesWereFresh r, filesWereFresh r,
          fileFreshnessFromCache r, dependencies r with
    | None, None, None, None, [] => true
    | _, _, _, _, _ => false
    end
  else true.

Definition goodNode (r : Report W) : bool := consistentNode r && cycleLeafNode r.

(** The report [_auditDependencyWorkspace] stores for a descriptor already
    on the path. *)
Definition cycleLeaf (w : W) : Report W :=
  set_loopsBackToParent (newReport w) (Some true).
End Trees.

(** ** Small concrete projects

    Workspaces are numbers, workspace 0 being the top-level one;
    descriptor [10 + n] resolves to workspace [n], smaller descriptors are
    external packages.  Every run log entry records [lastModified = 100];
    a stale workspace has a source file with [mtimeMs = 200], a fresh one a
    file with [mtimeMs = 100]. *)
Module Examples.
Open Scope string_scope.

Definition exRelativeCwd (n : nat) : string :=
  match n with
  | 0 => "."
  | 1 => "packages/a"
  | 2 => "packages/b"
  | 3 => "packages/c"
  | _ => "packages/d"
  end.

Definition exResolve (descriptor : nat) : option nat :=
  if (10 <=? descriptor)%nat then Some (descriptor - 10)%nat else None.

Definition exSource (stale : list nat) (n : nat) : list Detector.Entry :=
  if existsb (Nat.eqb n) stale then [Detector.EFile 200%Z]
  else [Detector.EFile 100%Z].

Definition exPrevious : option (string -> option RunLogEntry) :=
  Some (fun _ => Some (mkRunLogEntry (Some 100%Z))).

Definition exNow : Z := 500%Z.

Definition exWorkspaces : list nat := [0; 1; 2; 3].

Definition exAudit (deps : nat -> list nat) (stale : list nat) (w : nat)
  : option (Report nat * Catalog nat) :=
  audit nat Nat.eq_dec nat Nat.eq_dec exRelativeCwd deps exResolve
    (exSource stale) exPrevious exNow 5 w emptyCatalog.

(** The sequential project audit over the run log [exPrevious]. *)
Definition exProjectAudit (deps : nat -> list nat) (stale : list nat)
    (targets : list string) : option (ProjectReport nat) :=
  projectAudit nat Nat.eq_dec nat Nat.eq_dec exRelativeCwd deps exResolve
    (exSource stale) exPrevious exNow exWorkspaces 0 5 targets.

(** A project configuration declaring two ordinary settings,
    [enableTelemetry] (a falsy value) and [nodeLinker] (a string). *)
Definition exConfiguration : Configuration :=
  [("enableTelemetry", None); ("nodeLinker", Some (mkRunLogEntry None))].

(** [ProjectAuditor.audit] as shipped, on the example project. *)
Definition exProjectAuditor (deps : nat -> list nat) (stale : list nat)
    (sequential : bool) (targets : list string) : Outcome (ProjectReport nat) :=
  projectAuditor_audit nat Nat.eq_dec nat Nat.eq_dec exRelativeCwd deps exResolve
    (exSource stale) exNow exConfiguration 0 sequential exWorkspaces 5 targets.

(** A depends on B then C (a diamond's upper half). *)
Definition diamondDeps (n : nat) : list nat :=
  match n with 1 => [12; 13] | _ => [] end.

(** A depends on B only. *)
Definition chainDeps (n : nat) : list nat :=
  match n with 1 => [12] | _ => [] end.

(** A depends on B and B on A. *)
Definition cycleDeps (n : nat) : list nat :=
  match n with 1 => [12] | 2 => [11] | _ => [] end.
End Examples.

(** * Proofs *)

(** ** JS [Map] lemmas *)
Section JsMapFacts.
Context {K V : Type} (keqb : K -> K -> bool)
  (keqb_spec : forall a b, keqb a b = true <-> a = b).

Lemma keqb_refl (a : K) : keqb a a = true.
Proof. apply keqb_spec; reflexivity. Qed.

Lemma keqb_false (a b : K) : keqb a b = false <-> a <> b.
Proof.
  split.
  - intros H E; subst; rewrite keqb_refl in H; discriminate.
  - intros N; destruct (keqb a b) eqn:E; [|reflexivity].
    exfalso; apply N, keqb_spec, E.
Qed.

Lemma has_keys (m : list (K * V)) (u : K) :
  JsMap.has keqb m u = true <-> In u (map fst m).
Proof.
  induction m as [|[k' v'] m IH]; simpl; [split; [discriminate|tauto]|].
  rewrite orb_true_iff, IH, keqb_spec; split; intros [H|H]; auto.
Qed.

Lemma keys_set (m : list (K * V)) (k u : K) (v : V) :
  In u (map fst (JsMap.set keqb m k v)) <-> In u (map fst m) \/ u = k.
Proof.
  induction m as [|[k' v'] m IH]; simpl.
  - split; intros H; intuition (subst; auto).
  - destruct (keqb k k') eqn:E.
    + apply keqb_spec in E; subst; simpl; split; intros H; intuition (subst; auto).
    + simpl; rewrite IH; tauto.
Qed.

Lemma has_set (m : list (K * V)) (k u : K) (v : V) :
  JsMap.has keqb (JsMap.set keqb m k v) u = JsMap.has keqb m u || keqb u k.
Proof.
  apply eq_true_iff_eq; rewrite orb_true_iff, !has_keys, keys_set, keqb_spec.
  reflexivity.
Qed.

Lemma get_set_same (m : list (K * V)) (k : K) (v : V) :
  JsMap.get keqb (JsMap.set keqb m k v) k = Some v.
Proof.
  induction m as [|[k' v'] m IH]; simpl; [rewrite keqb_refl; reflexivity|].
  destruct (keqb k k') eqn:E; simpl; rewrite E; [reflexivity | exact IH].
Qed.

Lemma get_set_other (m : list (K * V)) (k u : K) (v : V) :
  u <> k -> JsMap.get keqb (JsMap.set keqb m k v) u = JsMap.get keqb m u.
Proof.
  intros N; induction m as [|[k' v'] m IH]; simpl.
  - apply keqb_false in N; rewrite N; reflexivity.
  - destruct (keqb k k') eqn:E; simpl.
    + apply keqb_spec in E; subst.
      apply keqb_false in N; rewrite N; reflexivity.
    + destruct (keqb u k'); [reflexivity | exact IH].
Qed.

Lemma has_get (m : list (K * V)) (u : K) :
  JsMap.has keqb m u = true -> exists v, JsMap.get keqb m u = Some v.
Proof.
  induction m as [|[k' v'] m IH]; simpl; [discriminate|].
  destruct (keqb u k'); simpl; eauto.
Qed.

Lemma get_has (m : list (K * V)) (u : K) (v : V) :
  JsMap.get keqb m u = Some v -> JsMap.has keqb m u = true.
Proof.
  induction m as [|[k' v'] m IH]; simpl; [discriminate|].
  destruct (keqb u k'); simpl; auto.
Qed.
End JsMapFacts.

(** ** [FreshnessDetector] *)

(** C9: the detector reports fresh exactly when the scanned maximum equals
    the baseline; a maximum older than the baseline is not fresh either. *)
Theorem detector_fresh_iff_exact_max
    (sourceDirectory : list Detector.Entry) (lastModified : Z) :
  (Detector.isFresh sourceDirectory lastModified = true <->
     Detector.getLastModifiedForFolder sourceDirectory = lastModified) /\
  ((Detector.getLastModifiedForFolder sourceDirectory < lastModified)%Z ->
     Detector.isFresh sourceDirectory lastModified = false) /\
  ((lastModified < Detector.getLastModifiedForFolder sourceDirectory)%Z ->
     Detector.isFresh sourceDirectory lastModified = false).
Proof.
  unfold Detector.isFresh.
  set (t := Detector.getLastModifiedForFolder sourceDirectory).
  split; [|split]; intros.
  - rewrite Z.eqb_eq; lia.
  - apply Z.eqb_neq; lia.
  - apply Z.eqb_neq; lia.
Qed.

(** Induction over directory entries, with a hypothesis for every entry
    of a directory. *)
Definition Entry_ind' (P : Detector.Entry -> Prop)
    (HF : forall t, P (Detector.EFile t))
    (HD : forall files, Forall P files -> P (Detector.EDir files))
    (HO : P Detector.EOther) : forall e, P e :=
  fix F (e : Detector.Entry) : P e :=
    match e as e0 return P e0 with
    | Detector.EFile t => HF t
    | Detector.EDir files =>
        HD files ((fix G (l : list Detector.Entry) : Forall P l :=
                     match l as l0 return Forall P l0 with
                     | [] => Forall_nil P
                     | f :: l' => Forall_cons f (F f) (G l')
                     end) files)
    | Detector.EOther => HO
    end.

Section DetectorFacts.
Local Open Scope Z_scope.

Local Abbreviation scanStep := (fun lm f => Detector.scanEntry f lm).

Lemma fold_max_shift (l : list Z) (a b : Z) :
  fold_right Z.max (Z.max a b) l = Z.max a (fold_right Z.max b l).
Proof. induction l as [|x l IH]; cbn [fold_right]; [reflexivity|]; rewrite IH; lia. Qed.

Lemma fold_max_comm (A B : list Z) (a : Z) :
  fold_right Z.max (fold_right Z.max a A) B = fold_right Z.max (fold_right Z.max a B) A.
Proof.
  induction A as [|x A IH]; cbn [fold_right]; [reflexivity|].
  rewrite fold_max_shift, IH; reflexivity.
Qed.

Lemma fold_max_ge (l : list Z) (a : Z) : a <= fold_right Z.max a l.
Proof. induction l as [|x l IH]; simpl; lia. Qed.

Lemma fold_max_in (l : list Z) (a t : Z) : In t l -> t <= fold_right Z.max a l.
Proof.
  induction l as [|x l IH]; simpl; [tauto|].
  intros [->|H]; [lia | specialize (IH H); lia].
Qed.

Lemma fold_max_perm (l l' : list Z) (a : Z) :
  Permutation l l' -> fold_right Z.max a l = fold_right Z.max a l'.
Proof. induction 1; simpl; lia. Qed.

Lemma fold_scan (files : list Detector.Entry) :
  Forall (fun e => forall lm, 0 <= lm ->
            Detector.scanEntry e lm = fold_right Z.max lm (Detector.entryTimes e)) files ->
  forall lm, 0 <= lm ->
  fold_left scanStep files lm = fold_right Z.max lm (flat_map Detector.entryTimes files).
Proof.
  induction 1 as [|e files He Hfiles IH]; intros lm Hlm; simpl; [reflexivity|].
  rewrite IH by (rewrite He by exact Hlm; apply Z.le_trans with lm;
                   [exact Hlm | apply fold_max_ge]).
  rewrite He by exact Hlm; rewrite fold_right_app, fold_max_comm; reflexivity.
Qed.

Lemma scanEntry_max (e : Detector.Entry) : forall lm, 0 <= lm ->
  Detector.scanEntry e lm = fold_right Z.max lm (Detector.entryTimes e).
Proof.
  induction e as [t|files IH|] using Entry_ind'; intros lm Hlm; simpl.
  - destruct (Z.gtb_spec t lm); lia.
  - rewrite (fold_scan files IH 0 ltac:(lia)).
    replace (fold_right Z.max lm (flat_map Detector.entryTimes files))
      with (fold_right Z.max (Z.max lm 0) (flat_map Detector.entryTimes files))
      by (f_equal; lia).
    rewrite fold_max_shift.
    destruct (Z.gtb_spec (fold_right Z.max 0 (flat_map Detector.entryTimes files)) lm); lia.
  - reflexivity.
Qed.

Lemma getLastModified_max (files : list Detector.Entry) :
  Detector.getLastModifiedForFolder files = fold_right Z.max 0 (Detector.fileTimes files).
Proof.
  apply fold_scan; [|lia].
  apply Forall_forall; intros e _; apply scanEntry_max.
Qed.
End DetectorFacts.

(** X1: [_getLastModifiedForFolder] returns the largest [mtimeMs] of the
    files under the folder at any depth, or 0 if that is larger (files
    with a negative time are never counted); a folder with no file at
    all gives 0, so the detector then reports fresh exactly when the
    baseline is 0. *)
Theorem detector_scan_is_max (files : list Detector.Entry) :
  Detector.getLastModifiedForFolder files =
    fold_right Z.max 0%Z (Detector.fileTimes files) /\
  (Detector.fileTimes files = [] ->
     forall lastModified, Detector.isFresh files lastModified = Z.eqb lastModified 0).
Proof.
  split; [apply getLastModified_max|].
  intros E lastModified; unfold Detector.isFresh.
  rewrite getLastModified_max, E; simpl; rewrite Z.sub_0_r; reflexivity.
Qed.

(** X2: a file anywhere under the source folder modified after the
    baseline makes the workspace not fresh. *)
Theorem detector_newer_file_not_fresh (files : list Detector.Entry)
    (lastModified t : Z) :
  In t (Detector.fileTimes files) -> (lastModified < t)%Z ->
  Detector.isFresh files lastModified = false.
Proof.
  intros I L; unfold Detector.isFresh; rewrite getLastModified_max.
  pose proof (fold_max_in _ 0%Z t I); apply Z.eqb_neq; lia.
Qed.

(** X3: the verdict of the detector depends only on the multiset of file
    times under the folder: neither the order in which [readdirPromise]
    lists the entries nor the way files are grouped into sub-folders
    changes it. *)
Theorem detector_depends_only_on_file_times (files files' : list Detector.Entry) :
  Permutation (Detector.fileTimes files) (Detector.fileTimes files') ->
  Detector.getLastModifiedForFolder files = Detector.getLastModifiedForFolder files' /\
  (forall lastModified,
     Detector.isFresh files lastModified = Detector.isFresh files' lastModified).
Proof.
  intros P.
  assert (E : Detector.getLastModifiedForFolder files =
              Detector.getLastModifiedForFolder files').
  { rewrite !getLastModified_max; apply fold_max_perm, P. }
  split; [exact E|]; intros lastModified; unfold Detector.isFresh; rewrite E; reflexivity.
Qed.

(** ** [FreshnessCatalog] *)
Section CatalogFacts.
Context {W : Type} (W_eq_dec : forall x y : W, {x = y} + {x <> y})
  (relativeCwd : W -> string) (sourceDirectory : W -> list Detector.Entry)
  (previousState : option (string -> option RunLogEntry)) (now : Z).

Local Abbreviation eqbW := (W_eqb W W_eq_dec).
Local Abbreviation wasChecked := (catalog_wasChecked W W_eq_dec).
Local Abbreviation isFresh1 :=
  (catalog_isFresh W W_eq_dec relativeCwd sourceDirectory previousState now).
Local Abbreviation run :=
  (catalog_run W W_eq_dec relativeCwd sourceDirectory previousState now).

Lemma W_eqb_spec (a b : W) : eqbW a b = true <-> a = b.
Proof. unfold W_eqb; destruct (W_eq_dec a b); split; congruence. Qed.

Definition cachedValue (c : Catalog W) (w : W) : bool :=
  match JsMap.get eqbW (_catalog c) w with Some b => b | None => false end.

Lemma isFresh_hit (c : Catalog W) (w : W) :
  wasChecked c w = true -> isFresh1 c w = (c, cachedValue c w).
Proof.
  intros H; unfold catalog_isFresh, isFresh_start.
  unfold catalog_wasChecked in H |- *; rewrite H; reflexivity.
Qed.

Lemma isFresh_miss (c : Catalog W) (w : W) :
  wasChecked c w = false ->
  let v := Detector.isFresh (sourceDirectory w) (baselineOf W relativeCwd previousState now w) in
  isFresh1 c w =
    (mkCatalog (JsMap.set eqbW (_catalog c) w v) (oracleCalls c ++ [w]), v).
Proof.
  intros H; unfold catalog_isFresh, isFresh_start.
  unfold catalog_wasChecked in H |- *; rewrite H; reflexivity.
Qed.

Lemma isFresh_get (c : Catalog W) (w : W) :
  JsMap.get eqbW (_catalog (fst (isFresh1 c w))) w = Some (snd (isFresh1 c w)).
Proof.
  destruct (wasChecked c w) eqn:H.
  - rewrite isFresh_hit by exact H; simpl; unfold cachedValue.
    destruct (has_get eqbW (_catalog c) w H) as [v E]; rewrite E; reflexivity.
  - rewrite isFresh_miss by exact H; simpl.
    apply get_set_same, W_eqb_spec.
Qed.

Lemma isFresh_keep (c : Catalog W) (w u : W) (v : bool) :
  JsMap.get eqbW (_catalog c) u = Some v ->
  JsMap.get eqbW (_catalog (fst (isFresh1 c w))) u = Some v.
Proof.
  intros G; destruct (wasChecked c w) eqn:H.
  - rewrite isFresh_hit by exact H; exact G.
  - rewrite isFresh_miss by exact H; simpl.
    rewrite get_set_other; [exact G | apply W_eqb_spec |].
    intros ->; apply get_has in G; unfold catalog_wasChecked in H; congruence.
Qed.

Lemma run_cached (ws : list W) : forall (c : Catalog W) (u : W) (v : bool) (j : nat),
  JsMap.get eqbW (_catalog c) u = Some v ->
  nth_error ws j = Some u -> nth_error (snd (run c ws)) j = Some v.
Proof.
  induction ws as [|w ws IH]; intros c u v j G N; [destruct j; discriminate|].
  simpl; destruct (isFresh1 c w) as [c1 r] eqn:E1.
  destruct (run c1 ws) as [c2 rs] eqn:E2; simpl.
  destruct j as [|j]; simpl in N |- *.
  - injection N as ->.
    pose proof (isFresh_keep c u u v G) as H; rewrite E1 in H; simpl in H.
    pose proof (isFresh_get c u) as H'; rewrite E1 in H'; simpl in H'; congruence.
  - pose proof (isFresh_keep c w u v G) as H; rewrite E1 in H; simpl in H.
    pose proof (IH c1 u v j H N) as H'; rewrite E2 in H'; exact H'.
Qed.

(** Each workspace was handed to the detector once if it is cached, and
    never otherwise. *)
Definition CountInv (c : Catalog W) : Prop :=
  forall u, count_occ W_eq_dec (oracleCalls c) u =
            if JsMap.has eqbW (_catalog c) u then 1 else 0.

Lemma isFresh_inv (c : Catalog W) (w : W) :
  CountInv c -> CountInv (fst (isFresh1 c w)).
Proof.
  intros I u; destruct (wasChecked c w) eqn:H.
  - rewrite isFresh_hit by exact H; apply I.
  - rewrite isFresh_miss by exact H; simpl.
    rewrite count_occ_app, has_set by apply W_eqb_spec; simpl.
    rewrite I; unfold catalog_wasChecked in H.
    destruct (W_eq_dec w u) as [->|N].
    + rewrite H, (keqb_refl _ W_eqb_spec); reflexivity.
    + assert (eqbW u w = false) as F by (apply (keqb_false _ W_eqb_spec); congruence).
      rewrite F, orb_false_r; destruct (JsMap.has eqbW (_catalog c) u); reflexivity.
Qed.

Lemma run_inv (ws : list W) : forall c : Catalog W,
  CountInv c -> CountInv (fst (run c ws)).
Proof.
  induction ws as [|w ws IH]; intros c I; simpl; [exact I|].
  destruct (isFresh1 c w) as [c1 r] eqn:E1.
  destruct (run c1 ws) as [c2 rs] eqn:E2; simpl.
  pose proof (IH c1) as H; rewrite E2 in H; apply H.
  pose proof (isFresh_inv c w I) as H1; rewrite E1 in H1; exact H1.
Qed.

Lemma run_repeat (ws : list W) : forall (c : Catalog W) (i j : nat) (u : W),
  i < j -> nth_error ws i = Some u -> nth_error ws j = Some u ->
  nth_error (snd (run c ws)) j = nth_error (snd (run c ws)) i.
Proof.
  induction ws as [|w ws IH]; intros c i j u L Ni Nj; [destruct i; discriminate|].
  simpl; destruct (isFresh1 c w) as [c1 r] eqn:E1.
  destruct (run c1 ws) as [c2 rs] eqn:E2; simpl.
  destruct j as [|j]; [lia|]; destruct i as [|i]; simpl in Ni, Nj |- *.
  - injection Ni as ->.
    pose proof (isFresh_get c u) as G; rewrite E1 in G; simpl in G.
    pose proof (run_cached ws c1 u r j G Nj) as H; rewrite E2 in H; exact H.
  - pose proof (IH c1 i j u ltac:(lia) Ni Nj) as H; rewrite E2 in H; exact H.
Qed.

(** C5 (as it holds): when the [isFresh] calls of one catalog do not
    overlap, the detector runs at most once per workspace, a repeated
    query returns the value of the first one, and a query for a checked
    workspace changes neither the cache nor the detector runs
    ([wasChecked] is a pure function of the catalog). *)
Theorem catalog_sequential_oracle_once (ws : list W) :
  (forall u, count_occ W_eq_dec (oracleCalls (fst (run emptyCatalog ws))) u <= 1) /\
  (forall i j u, i < j -> nth_error ws i = Some u -> nth_error ws j = Some u ->
     nth_error (snd (run emptyCatalog ws)) j = nth_error (snd (run emptyCatalog ws)) i) /\
  (forall (c : Catalog W) (w : W), wasChecked c w = true ->
     fst (isFresh1 c w) = c /\ snd (isFresh1 c w) = cachedValue c w).
Proof.
  split; [|split].
  - intros u; rewrite (run_inv ws emptyCatalog ltac:(intros v; reflexivity) u).
    destruct (JsMap.has _ _ _); lia.
  - intros i j u; apply run_repeat.
  - intros c w H; rewrite isFresh_hit by exact H; split; reflexivity.
Qed.
End CatalogFacts.

(** C5 (counterexample): two overlapping [isFresh] calls for the same
    workspace (the second starts while the first awaits the detector, as
    in [audit({ sequential: false })]) both run the detector. *)
Lemma catalog_overlapping_calls_scan_twice :
  count_occ Nat.eq_dec
    (oracleCalls (fst (schedule nat Nat.eq_dec Examples.exRelativeCwd
       (Examples.exSource []) Examples.exPrevious Examples.exNow emptyCatalog []
       [Call 1; Call 1; Wake 0; Wake 1]))) 1 = 2.
Proof. vm_compute; reflexivity. Qed.

(** ** The cache answers what the detector answers *)
Section CatalogSoundness.
Context {W : Type} (W_eq_dec : forall x y : W, {x = y} + {x <> y})
  (relativeCwd : W -> string) (sourceDirectory : W -> list Detector.Entry)
  (previousState : option (string -> option RunLogEntry)) (now : Z).

Local Abbreviation eqbW := (W_eqb W W_eq_dec).
Local Abbreviation isFresh1 :=
  (catalog_isFresh W W_eq_dec relativeCwd sourceDirectory previousState now).
Local Abbreviation run :=
  (catalog_run W W_eq_dec relativeCwd sourceDirectory previousState now).
Local Abbreviation verdict := (detectorVerdict relativeCwd sourceDirectory previousState now).
Local Abbreviation sound := (catalogSound W_eq_dec relativeCwd sourceDirectory previousState now).

Lemma emptyCatalog_sound : sound emptyCatalog.
Proof. intros w v H; discriminate. Qed.

Lemma isFresh_sound (c : Catalog W) (w : W) :
  sound c -> snd (isFresh1 c w) = verdict w /\ sound (fst (isFresh1 c w)).
Proof.
  intros S; destruct (catalog_wasChecked W W_eq_dec c w) eqn:H.
  - rewrite (isFresh_hit W_eq_dec relativeCwd sourceDirectory previousState now c w H).
    split; [|exact S]; simpl; unfold cachedValue.
    destruct (has_get _ _ _ H) as [v E]; rewrite E.
    exact (S w v E).
  - rewrite (isFresh_miss W_eq_dec relativeCwd sourceDirectory previousState now c w H).
    split; [reflexivity|]; intros u v G; simpl in G.
    destruct (W_eq_dec u w) as [->|N].
    + rewrite (get_set_same _ (W_eqb_spec W_eq_dec)) in G; injection G as <-; reflexivity.
    + rewrite (get_set_other _ (W_eqb_spec W_eq_dec)) in G by exact N; exact (S u v G).
Qed.

Lemma has_isFresh (c : Catalog W) (w u : W) :
  JsMap.has eqbW (_catalog (fst (isFresh1 c w))) u =
    JsMap.has eqbW (_catalog c) u || eqbW u w.
Proof.
  destruct (catalog_wasChecked W W_eq_dec c w) eqn:H.
  - rewrite (isFresh_hit W_eq_dec relativeCwd sourceDirectory previousState now c w H); simpl.
    destruct (W_eq_dec u w) as [->|N].
    + unfold catalog_wasChecked in H; rewrite H; reflexivity.
    + rewrite (proj2 (keqb_false _ (W_eqb_spec W_eq_dec) u w) N), orb_false_r; reflexivity.
  - rewrite (isFresh_miss W_eq_dec relativeCwd sourceDirectory previousState now c w H); simpl.
    apply (has_set _ (W_eqb_spec W_eq_dec)).
Qed.

Lemma run_sound (ws : list W) : forall c : Catalog W,
  sound c -> snd (run c ws) = map verdict ws /\ sound (fst (run c ws)).
Proof.
  induction ws as [|w ws IH]; intros c S; simpl; [split; [reflexivity | exact S]|].
  destruct (isFresh_sound c w S) as [V S1].
  destruct (isFresh1 c w) as [c1 v] eqn:E1; simpl in V, S1.
  destruct (IH c1 S1) as [Vs S2].
  destruct (run c1 ws) as [c2 vs]; simpl in *; subst; split; [reflexivity | exact S2].
Qed.
End CatalogSoundness.

(** X4: whatever the order and repetitions of the queries, a catalog
    started empty answers each one with the detector's verdict for that
    workspace against its logged baseline (or the clock when the run log
    has no entry): caching never changes an answer. *)
Theorem catalog_run_verdicts {W : Type} (W_eq_dec : forall x y : W, {x = y} + {x <> y})
    (relativeCwd : W -> string) (sourceDirectory : W -> list Detector.Entry)
    (previousState : option (string -> option RunLogEntry)) (now : Z) (ws : list W) :
  snd (catalog_run W W_eq_dec relativeCwd sourceDirectory previousState now emptyCatalog ws) =
    map (detectorVerdict relativeCwd sourceDirectory previousState now) ws.
Proof.
  apply (run_sound W_eq_dec relativeCwd sourceDirectory previousState now ws).
  apply emptyCatalog_sound.
Qed.

(** ** Report trees and [ReportInspector] *)
Section TreeFacts.
Context {W : Type}.

Lemma allReports_unfold (P : Report W -> bool) (r : Report W) :
  allReports P r =
    P r && forallb (fun p => allReports P (snd p)) (dependencies r).
Proof.
  destruct r as [w a b c d e m]; simpl; f_equal.
  induction m as [|[k child] m IH]; simpl; [reflexivity|]; rewrite IH; reflexivity.
Qed.

Lemma allReports_InTree (P : Report W -> bool) (r node : Report W) :
  allReports P r = true -> InTree node r -> P node = true.
Proof.
  intros H T; induction T as [|r k child Hin T IH].
  - rewrite allReports_unfold in H; apply andb_true_iff in H; apply H.
  - apply IH; rewrite allReports_unfold in H; apply andb_true_iff in H.
    destruct H as [_ H]; rewrite forallb_forall in H; apply (H (k, child) Hin).
Qed.

Lemma forallb_set (P : Report W -> bool) (m : list (string * Report W))
    (k : string) (v : Report W) :
  forallb (fun p => P (snd p)) m = true -> P v = true ->
  forallb (fun p => P (snd p)) (JsMap.set String.eqb m k v) = true.
Proof.
  intros Hm Hv; induction m as [|[k' v'] m IH]; simpl in *.
  - rewrite Hv; reflexivity.
  - apply andb_true_iff in Hm as [H1 H2].
    destruct (String.eqb k k'); simpl; rewrite ?Hv, ?H1, ?H2, ?IH by exact H2;
      reflexivity.
Qed.

Lemma unrollWorkspaceReport_unfold (r : Report W) :
  unrollWorkspaceReport r =
    if truthy (loopsBackToParent r) then []
    else if truthy (isFresh r) then []
    else if negb (truthy (dependenciesWereFresh r)) then
      workspace r :: flat_map (fun p => unrollWorkspaceReport (snd p)) (dependencies r)
    else if negb (truthy (filesWereFresh r)) then [workspace r]
    else [].
Proof.
  destruct r as [w a b c d e m]; simpl.
  destruct (truthy b), (truthy a), (truthy c), (truthy d); try reflexivity;
    simpl; f_equal;
    induction m as [|[k child] m IH]; simpl; try reflexivity; rewrite IH; reflexivity.
Qed.

(** C6: the decision policy of [_unrollWorkspaceReport], case by case. *)
Theorem unroll_decision_policy (r : Report W) :
  (loopsBackToParent r = Some true -> unrollWorkspaceReport r = []) /\
  (truthy (loopsBackToParent r) = false -> isFresh r = Some true ->
     unrollWorkspaceReport r = []) /\
  (truthy (loopsBackToParent r) = false -> truthy (isFresh r) = false ->
     dependenciesWereFresh r = Some false ->
     unrollWorkspaceReport r =
       workspace r :: flat_map (fun p => unrollWorkspaceReport (snd p)) (dependencies r)) /\
  (truthy (loopsBackToParent r) = false -> truthy (isFresh r) = false ->
     dependenciesWereFresh r = Some true -> filesWereFresh r = Some false ->
     unrollWorkspaceReport r = [workspace r]).
Proof.
  rewrite !unrollWorkspaceReport_unfold.
  split; [|split; [|split]].
  - intros ->; reflexivity.
  - intros -> ->; reflexivity.
  - intros -> -> ->; reflexivity.
  - intros -> -> -> ->; reflexivity.
Qed.
End TreeFacts.

(** ** [WorkspaceAuditor] *)
Section AuditFacts.
Context {W : Type} (W_eq_dec : forall x y : W, {x = y} + {x <> y})
  {D : Type} (D_eq_dec : forall x y : D, {x = y} + {x <> y})
  (relativeCwd : W -> string) (dependencies_of : W -> list D)
  (tryWorkspaceByDescriptor : D -> option W)
  (sourceDirectory : W -> list Detector.Entry)
  (previousState : option (string -> option RunLogEntry)) (now : Z).

Local Abbreviation isFresh1 :=
  (catalog_isFresh W W_eq_dec relativeCwd sourceDirectory previousState now).
Local Abbreviation loop :=
  (auditLoop W W_eq_dec D D_eq_dec relativeCwd tryWorkspaceByDescriptor
     sourceDirectory previousState now).
Local Abbreviation auditDep :=
  (auditDependencyWorkspace W W_eq_dec D D_eq_dec relativeCwd dependencies_of
     tryWorkspaceByDescriptor sourceDirectory previousState now).
Local Abbreviation auditW :=
  (audit W W_eq_dec D D_eq_dec relativeCwd dependencies_of
     tryWorkspaceByDescriptor sourceDirectory previousState now).
Local Abbreviation inPath := (includes D D_eq_dec).

Lemma includes_spec (path : list D) (d : D) : inPath path d = true <-> In d path.
Proof.
  unfold includes; rewrite existsb_exists; split.
  - intros [x [Hx E]]; unfold D_eqb in E; destruct (D_eq_dec d x); congruence.
  - intros H; exists d; split; [exact H|]; unfold D_eqb; destruct (D_eq_dec d d); congruence.
Qed.

(** A descriptor already on the path: a cycle leaf is stored, nothing is
    audited, the catalog and the other fields of the report are left as
    they are. *)
Lemma loop_cycle_step recurse (w : W) (path : list D) (d : D) (ds : list D)
    (report : Report W) (c : Catalog W) (dw : W) :
  tryWorkspaceByDescriptor d = Some dw -> In d path ->
  loop recurse w path (d :: ds) report c =
    loop recurse w path ds
      (set_dependencies report
         (JsMap.set String.eqb (dependencies report) (relativeCwd w) (cycleLeaf dw)))
      c.
Proof.
  intros R P; apply includes_spec in P; simpl; rewrite R, P; reflexivity.
Qed.

Lemma loop_total recurse (w : W) (path : list D) (ds : list D) :
  (forall d dw c report, In d ds -> tryWorkspaceByDescriptor d = Some dw ->
     ~ In d path -> recurse dw c (d :: path) report <> None) ->
  forall report c, loop recurse w path ds report c <> None.
Proof.
  induction ds as [|d ds IH]; intros Hrec report c; simpl; [discriminate|].
  assert (Hrec' : forall d' dw c' report', In d' ds ->
            tryWorkspaceByDescriptor d' = Some dw -> ~ In d' path ->
            recurse dw c' (d' :: path) report' <> None)
    by (intros; apply Hrec; simpl; auto).
  destruct (tryWorkspaceByDescriptor d) as [dw|] eqn:R; [|apply IH; exact Hrec'].
  destruct (inPath path d) eqn:P; [apply IH; exact Hrec'|].
  destruct (recurse dw c (d :: path) _) as [[[b child] c1]|] eqn:E.
  - destruct (isFresh1 c1 dw) as [c2 f]; apply IH; exact Hrec'.
  - exfalso; refine (Hrec d dw c _ (or_introl eq_refl) R _ E).
    rewrite <- includes_spec, P; discriminate.
Qed.

Section Finite.
(** Every descriptor of the project is one of [univ]. *)
Variable univ : list D.
Hypothesis univ_covers : forall w d, In d (dependencies_of w) -> In d univ.

Lemma auditDep_total (fuel : nat) : forall w c path report,
  NoDup path -> incl path univ -> List.length univ - List.length path < fuel ->
  auditDep fuel w c path report <> None.
Proof.
  induction fuel as [|fuel IH]; intros w c path report Nd Inc L; [lia|].
  simpl; destruct (isFresh1 c w) as [c1 f].
  destruct (loop _ w path (dependencies_of w) _ c1) as [[r c2]|] eqn:E;
    [discriminate|].
  exfalso; revert E; apply loop_total.
  intros d dw c' report' Hin _ Hnot; apply IH.
  - constructor; assumption.
  - intros x [<-|Hx]; [apply (univ_covers w), Hin | apply Inc, Hx].
  - assert (List.length (d :: path) <= List.length univ).
    { apply NoDup_incl_length; [constructor; assumption|].
      intros x [<-|Hx]; [apply (univ_covers w), Hin | apply Inc, Hx]. }
    simpl in *; lia.
Qed.

Lemma audit_total (w : W) (c : Catalog W) :
  auditW (S (List.length univ)) w c <> None.
Proof.
  unfold audit.
  destruct (auditDep _ w c [] (newReport w)) as [[[b r] c1]|] eqn:E; [discriminate|].
  exfalso; revert E; apply auditDep_total.
  - constructor.
  - intros x [].
  - simpl; lia.
Qed.
End Finite.

(** *** Shape of the reports built by the auditor *)
Definition childrenOk (m : list (string * Report W)) : bool :=
  forallb (fun p => allReports goodNode (snd p)) m.

(** What the recursive call guarantees about the report it returns. *)
Definition RecShape (recurse : W -> Catalog W -> list D -> Report W -> AuditResult W)
  : Prop :=
  forall dw c p rep b r c',
    recurse dw c p rep = Some (b, r, c') -> childrenOk (dependencies rep) = true ->
    exists d f, dependenciesWereFresh r = Some d /\ filesWereFresh r = Some f /\
      isFresh r = Some f /\ b = d && f /\
      loopsBackToParent r = loopsBackToParent rep /\
      childrenOk (dependencies r) = true.

Lemma loop_shape recurse (w : W) (path : list D) :
  RecShape recurse ->
  forall ds report c r c',
    loop recurse w path ds report c = Some (r, c') ->
    childrenOk (dependencies report) = true ->
    (exists d0, dependenciesWereFresh report = Some d0) ->
    isFresh r = isFresh report /\ filesWereFresh r = filesWereFresh report /\
    loopsBackToParent r = loopsBackToParent report /\
    (exists d, dependenciesWereFresh r = Some d) /\
    childrenOk (dependencies r) = true.
Proof.
  intros Hrec ds; induction ds as [|d ds IH]; intros report c r c' H Ok Hd.
  - cbn [auditLoop] in H; injection H as <- <-; repeat split; assumption.
  - cbn [auditLoop] in H.
    destruct (tryWorkspaceByDescriptor d) as [dw|] eqn:R; [|exact (IH _ _ _ _ H Ok Hd)].
    destruct (inPath path d) eqn:P.
    + edestruct (IH _ _ _ _ H) as (A1 & A2 & A3 & A4 & A5).
      * apply forallb_set; [exact Ok | reflexivity].
      * exact Hd.
      * repeat split; assumption.
    + match type of H with
      | context [recurse ?a ?b ?p ?e] =>
          destruct (recurse a b p e) as [[[b1 r1] c1]|] eqn:E; [|discriminate];
          destruct (Hrec _ _ _ _ _ _ _ E eq_refl)
            as (d1 & f1 & Hd1 & Hf1 & Hi1 & Hb1 & Hl1 & Hok1)
      end.
      destruct (isFresh1 c1 dw) as [c2 f2].
      destruct r1 as [w1 i1 l1 dd1 ff1 fc1 m1]; simpl in Hd1, Hf1, Hi1, Hl1, Hok1.
      subst; destruct Hd as [d0 Hd].
      destruct d1, f1, f2;
        (edestruct (IH _ _ _ _ H) as (A1 & A2 & A3 & A4 & A5);
         [ apply forallb_set; [exact Ok | unfold childrenOk in Hok1;
             rewrite allReports_unfold; simpl; exact Hok1]
         | simpl; eauto
         | repeat split; assumption ]).
Qed.

Lemma auditDep_shape (fuel : nat) : RecShape (auditDep fuel).
Proof.
  induction fuel as [|fuel IH]; intros w c p rep b r c' H Ok; [discriminate|].
  cbn [auditDependencyWorkspace] in H.
  destruct (isFresh1 c w) as [c1 f] eqn:F.
  match type of H with
  | context [loop ?rc w p (dependencies_of w) ?rp c1] =>
      destruct (loop rc w p (dependencies_of w) rp c1) as [[r1 c2]|] eqn:E;
        [|discriminate];
      pose proof (loop_shape rc w p IH _ _ _ _ _ E) as LS
  end.
  specialize (LS ltac:(destruct f; exact Ok) ltac:(destruct f; simpl; eauto)).
  destruct LS as (A1 & A2 & A3 & [d A4] & A5).
  injection H as <- <- <-.
  exists d, f; destruct f; simpl in *; rewrite A1, A2, A3, A4, A5;
    repeat split; try reflexivity; destruct d; reflexivity.
Qed.

(** Every node of a report returned by [WorkspaceAuditor.audit] is
    consistent and every cycle node is a bare leaf. *)
Lemma audit_good (fuel : nat) (w : W) (c : Catalog W) (r : Report W) (c' : Catalog W) :
  auditW fuel w c = Some (r, c') -> allReports goodNode r = true.
Proof.
  unfold audit; intros H.
  destruct (auditDep fuel w c [] (newReport w)) as [[[b r1] c1]|] eqn:E; [|discriminate].
  injection H as <- <-.
  destruct (auditDep_shape fuel _ _ _ _ _ _ _ E eq_refl)
    as (d & f & Hd & Hf & Hi & Hb & Hl & Hok).
  subst b; rewrite allReports_unfold; apply andb_true_iff; split; [|exact Hok].
  unfold goodNode, consistentNode, cycleLeafNode; simpl.
  rewrite Hl, Hd, Hf; simpl; rewrite eqb_reflx; reflexivity.
Qed.

(** C4: in a finished report tree, every non-cycle node is fully
    processed and [isFresh == (dependenciesWereFresh && filesWereFresh)]. *)
Theorem audit_isFresh_equation (fuel : nat) (w : W) (c : Catalog W)
    (r : Report W) (c' : Catalog W) :
  auditW fuel w c = Some (r, c') ->
  forall node, InTree node r -> truthy (loopsBackToParent node) = false ->
  exists d f, dependenciesWereFresh node = Some d /\
    filesWereFresh node = Some f /\ isFresh node = Some (d && f).
Proof.
  intros H node T L.
  pose proof (allReports_InTree goodNode r node (audit_good fuel w c r c' H) T) as G.
  unfold goodNode, consistentNode in G; rewrite L in G; simpl in G.
  destruct (isFresh node) as [a|], (dependenciesWereFresh node) as [d|],
    (filesWereFresh node) as [f|]; try discriminate.
  exists d, f; repeat split.
  apply andb_true_iff in G as [G _]; apply eqb_prop in G; subst; reflexivity.
Qed.

(** C7: on a project whose descriptors are finitely many, the audit of
    any workspace terminates (the recursion depth is bounded by the
    number of descriptors, since a descriptor already on the path is
    never descended into), and the report stored for a descriptor already
    on the path is a node with [loopsBackToParent = true], stored without
    auditing it. *)
Theorem audit_terminates_marks_cycles (univ : list D) :
  (forall w d, In d (dependencies_of w) -> In d univ) ->
  (forall w c, auditW (S (List.length univ)) w c <> None) /\
  (forall fuel w path d ds report c dw,
     tryWorkspaceByDescriptor d = Some dw -> In d path ->
     loop (auditDep fuel) w path (d :: ds) report c =
       loop (auditDep fuel) w path ds
         (set_dependencies report
            (JsMap.set String.eqb (dependencies report) (relativeCwd w) (cycleLeaf dw)))
         c /\
     loopsBackToParent (cycleLeaf dw) = Some true).
Proof.
  intros Cov; split.
  - intros w c; apply (audit_total univ Cov).
  - intros fuel w path d ds report c dw R P; split;
      [apply loop_cycle_step; assumption | reflexivity].
Qed.

(** C8: a node with [loopsBackToParent = true] in a finished report tree
    has every other field undefined and no dependencies, and the
    inspector emits nothing for it; the loop step that stores it audits
    nothing, leaves the catalog as it is and changes nothing of the
    parent's report but its [dependencies] map (in particular not its
    [dependenciesWereFresh]). *)
Theorem audit_cycle_nodes_are_leaves (fuel : nat) (w : W) (c : Catalog W)
    (r : Report W) (c' : Catalog W) :
  auditW fuel w c = Some (r, c') ->
  (forall node, InTree node r -> loopsBackToParent node = Some true ->
     isFresh node = None /\ dependenciesWereFresh node = None /\
     filesWereFresh node = None /\ fileFreshnessFromCache node = None /\
     dependencies node = [] /\ unrollWorkspaceReport node = []) /\
  (forall fuel' w' path d ds report c0 dw,
     tryWorkspaceByDescriptor d = Some dw -> In d path ->
     loop (auditDep fuel') w' path (d :: ds) report c0 =
       loop (auditDep fuel') w' path ds
         (set_dependencies report
            (JsMap.set String.eqb (dependencies report) (relativeCwd w') (cycleLeaf dw)))
         c0).
Proof.
  intros H; split.
  - intros node T L.
    pose proof (allReports_InTree goodNode r node (audit_good fuel w c r c' H) T) as G.
    unfold goodNode, consistentNode, cycleLeafNode in G; rewrite L in G; simpl in G.
    rewrite unrollWorkspaceReport_unfold, L.
    destruct (isFresh node), (dependenciesWereFresh node), (filesWereFresh node),
      (fileFreshnessFromCache node), (dependencies node); try discriminate.
    repeat split.
  - intros; apply loop_cycle_step; assumption.
Qed.

Lemma targets_spec (s : string) (targets : list string) :
  existsb (String.eqb s) targets = true <-> In s targets.
Proof.
  rewrite existsb_exists; split.
  - intros [x [Hx E]]; apply String.eqb_eq in E; subst; exact Hx.
  - intros H; exists s; split; [exact H | apply String.eqb_refl].
Qed.

End AuditFacts.

(** ** What the auditor computes *)
Section AuditSemantics.
Context {W : Type} (W_eq_dec : forall x y : W, {x = y} + {x <> y})
  {D : Type} (D_eq_dec : forall x y : D, {x = y} + {x <> y})
  (relativeCwd : W -> string) (dependencies_of : W -> list D)
  (tryWorkspaceByDescriptor : D -> option W)
  (sourceDirectory : W -> list Detector.Entry)
  (previousState : option (string -> option RunLogEntry)) (now : Z).

Local Abbreviation eqbW := (W_eqb W W_eq_dec).
Local Abbreviation isFresh1 :=
  (catalog_isFresh W W_eq_dec relativeCwd sourceDirectory previousState now).
Local Abbreviation loop :=
  (auditLoop W W_eq_dec D D_eq_dec relativeCwd tryWorkspaceByDescriptor
     sourceDirectory previousState now).
Local Abbreviation auditDep :=
  (auditDependencyWorkspace W W_eq_dec D D_eq_dec relativeCwd dependencies_of
     tryWorkspaceByDescriptor sourceDirectory previousState now).
Local Abbreviation auditW :=
  (audit W W_eq_dec D D_eq_dec relativeCwd dependencies_of
     tryWorkspaceByDescriptor sourceDirectory previousState now).
Local Abbreviation inPath := (includes D D_eq_dec).
Local Abbreviation verdict := (detectorVerdict relativeCwd sourceDirectory previousState now).
Local Abbreviation sound := (catalogSound W_eq_dec relativeCwd sourceDirectory previousState now).
Local Abbreviation hasC c u := (JsMap.has (W_eqb W W_eq_dec) (_catalog c) u).
Local Abbreviation reach := (reaches dependencies_of tryWorkspaceByDescriptor).

(** Workspaces the recursion descends to from [w] with [path] on the
    stack: it never takes a descriptor already on the path. *)
Inductive Reach : list D -> W -> W -> Prop :=
| Reach_refl (path : list D) (w : W) : Reach path w w
| Reach_step (path : list D) (w : W) (d : D) (dw u : W) :
    In d (dependencies_of w) -> tryWorkspaceByDescriptor d = Some dw ->
    ~ In d path -> Reach (d :: path) dw u -> Reach path w u.

Lemma Reach_inv (path : list D) (w u : W) :
  Reach path w u <-> u = w \/ exists d dw, In d (dependencies_of w) /\
    tryWorkspaceByDescriptor d = Some dw /\ ~ In d path /\ Reach (d :: path) dw u.
Proof.
  split.
  - intros H; inversion H; subst; [left; reflexivity | right; eauto 10].
  - intros [->|(d & dw & H1 & H2 & H3 & H4)]; [constructor | econstructor; eauto].
Qed.

(** The catalog transitions of an audit: a sequence of completed
    [isFresh] calls. *)
Inductive Steps : Catalog W -> Catalog W -> Prop :=
| Steps_refl (c : Catalog W) : Steps c c
| Steps_step (c : Catalog W) (w : W) (c' : Catalog W) :
    Steps (fst (isFresh1 c w)) c' -> Steps c c'.

Lemma Steps_trans (c1 c2 c3 : Catalog W) : Steps c1 c2 -> Steps c2 c3 -> Steps c1 c3.
Proof. induction 1; intros; [assumption | econstructor; eauto]. Qed.

Lemma Steps_inv (P : Catalog W -> Prop) :
  (forall c w, P c -> P (fst (isFresh1 c w))) ->
  forall c c', Steps c c' -> P c -> P c'.
Proof. intros HP c c' S; induction S; auto. Qed.

Lemma Steps_sound (c c' : Catalog W) : Steps c c' -> sound c -> sound c'.
Proof.
  apply Steps_inv; intros c0 w S0.
  exact (proj2 (isFresh_sound W_eq_dec relativeCwd sourceDirectory previousState now c0 w S0)).
Qed.

(** What the recursive call of the loop is required to do. *)
Definition RecSem (recurse : W -> Catalog W -> list D -> Report W -> AuditResult W) : Prop :=
  forall dw c p rep b r c',
    recurse dw c p rep = Some (b, r, c') ->
    Steps c c' /\
    (forall u, hasC c' u = true <-> hasC c u = true \/ Reach p dw u) /\
    workspace r = workspace rep /\ loopsBackToParent r = loopsBackToParent rep /\
    (sound c -> (b = true <-> forall u, Reach p dw u -> verdict u = true)).

Lemma loop_sem recurse (w : W) (path : list D) :
  RecSem recurse ->
  forall ds report c r c',
    loop recurse w path ds report c = Some (r, c') ->
    Steps c c' /\
    (forall u, hasC c' u = true <-> hasC c u = true \/
       exists d dw, In d ds /\ tryWorkspaceByDescriptor d = Some dw /\
         ~ In d path /\ Reach (d :: path) dw u) /\
    workspace r = workspace report /\ loopsBackToParent r = loopsBackToParent report /\
    filesWereFresh r = filesWereFresh report /\
    (sound c -> (truthy (dependenciesWereFresh r) = true <->
       truthy (dependenciesWereFresh report) = true /\
       forall d dw u, In d ds -> tryWorkspaceByDescriptor d = Some dw ->
         ~ In d path -> Reach (d :: path) dw u -> verdict u = true)).
Proof.
  intros Hrec ds; induction ds as [|d ds IH]; intros report c r c' H.
  - cbn [auditLoop] in H; injection H as <- <-.
    split; [constructor|]; split; [intros u; split; [tauto|]; intros [?|(? & ? & [] & _)]; assumption|].
    refine (conj eq_refl (conj eq_refl (conj eq_refl _))); intros _.
    split; [intros D0; split; [exact D0 | intros ? ? ? []] | tauto].
  - cbn [auditLoop] in H.
    destruct (tryWorkspaceByDescriptor d) as [dw|] eqn:R.
    2:{ destruct (IH _ _ _ _ H) as (S & K & A1 & A2 & A3 & V).
        split; [exact S|]; split.
        - intros u; rewrite K; split.
          + intros [?|(d' & dw' & I & R' & N & Rc)]; [left; assumption | right; exists d', dw'; simpl; auto].
          + intros [?|(d' & dw' & [<-|I] & R' & N & Rc)]; [left; assumption | congruence | right; eauto 10].
        - split; [exact A1 | split; [exact A2 | split; [exact A3 |]]].
          intros Sc; rewrite (V Sc); split; intros [D1 D2]; split; auto.
          + intros d' dw' u [<-|I]; [congruence | eauto].
          + intros d' dw' u I; apply (D2 d' dw' u); simpl; auto. }
    destruct (inPath path d) eqn:P.
    + apply includes_spec in P.
      destruct (IH _ _ _ _ H) as (S & K & A1 & A2 & A3 & V); simpl in A1, A2, A3.
      split; [exact S|]; split.
      * intros u; rewrite K; split.
        -- intros [?|(d' & dw' & I & R' & N & Rc)]; [left; assumption | right; exists d', dw'; simpl; auto].
        -- intros [?|(d' & dw' & [<-|I] & R' & N & Rc)]; [left; assumption | contradiction | right; eauto 10].
      * split; [exact A1 | split; [exact A2 | split; [exact A3 |]]].
        intros Sc; rewrite (V Sc); simpl; split; intros [D1 D2]; split; auto.
        -- intros d' dw' u [<-|I]; [contradiction | eauto].
        -- intros d' dw' u I; apply (D2 d' dw' u); simpl; auto.
    + assert (NP : ~ In d path) by (rewrite <- includes_spec, P; discriminate).
      match type of H with
      | context [recurse ?a ?b ?p ?e] =>
          destruct (recurse a b p e) as [[[b1 r1] c1]|] eqn:E; [|discriminate];
          destruct (Hrec _ _ _ _ _ _ _ E) as (S1 & K1 & W1 & L1 & V1)
      end.
      pose proof (isFresh_sound W_eq_dec relativeCwd sourceDirectory previousState now c1 dw) as IS.
      pose proof (has_isFresh W_eq_dec relativeCwd sourceDirectory previousState now c1 dw) as HI.
      destruct (isFresh1 c1 dw) as [c2 f] eqn:F; simpl in IS, HI.
      set (report' := set_dependencies _ _) in H.
      assert (Rp : workspace report' = workspace report /\
                   loopsBackToParent report' = loopsBackToParent report /\
                   filesWereFresh report' = filesWereFresh report /\
                   truthy (dependenciesWereFresh report') =
                     truthy (dependenciesWereFresh report) && b1 && f).
      { subst report'; destruct b1, f; simpl; rewrite ?andb_true_r, ?andb_false_r;
          repeat split; reflexivity. }
      destruct Rp as (Rw & Rl & Rf & Rd).
      destruct (IH _ _ _ _ H) as (S & K & A1 & A2 & A3 & V).
      split; [eapply Steps_trans; [exact S1|]; econstructor; rewrite F; exact S|].
      split.
      * intros u; rewrite K, HI, orb_true_iff, K1.
        assert (Reach (d :: path) dw dw) by constructor.
        split.
        -- intros [[[?|Rc]|Q]|(d' & dw' & I & R' & N & Rc)].
           ++ left; assumption.
           ++ right; exists d, dw; simpl; auto.
           ++ apply (W_eqb_spec W_eq_dec) in Q; subst u; right; exists d, dw; simpl; auto.
           ++ right; exists d', dw'; simpl; auto.
        -- intros [?|(d' & dw' & [<-|I] & R' & N & Rc)].
           ++ left; left; left; assumption.
           ++ rewrite R in R'; injection R' as <-; left; left; right; exact Rc.
           ++ right; eauto 10.
      * rewrite A1, A2, A3, Rw, Rl, Rf.
        refine (conj eq_refl (conj eq_refl (conj eq_refl _))); intros Sc.
        assert (Sc1 : sound c1) by exact (Steps_sound c c1 S1 Sc).
        destruct (IS Sc1) as [Fv Sc2].
        rewrite (V Sc2), Rd, !andb_true_iff, (V1 Sc), Fv.
        split.
        -- intros [[[D0 B1] Fw] D2]; split; [exact D0|].
           intros d' dw' u [<-|I] R' N' Rc.
           ++ rewrite R in R'; injection R' as <-; apply B1, Rc.
           ++ exact (D2 d' dw' u I R' N' Rc).
        -- intros [D0 D2]; split; [split; [split|]|].
           ++ exact D0.
           ++ intros u Rc; exact (D2 d dw u (or_introl eq_refl) R NP Rc).
           ++ exact (D2 d dw dw (or_introl eq_refl) R NP (Reach_refl _ _)).
           ++ intros d' dw' u I; apply (D2 d' dw' u (or_intror I)).
Qed.

Lemma auditDep_sem (fuel : nat) : RecSem (auditDep fuel).
Proof.
  induction fuel as [|fuel IH]; intros w c p rep b r c' H; [discriminate|].
  cbn [auditDependencyWorkspace] in H.
  pose proof (isFresh_sound W_eq_dec relativeCwd sourceDirectory previousState now c w) as IS.
  pose proof (has_isFresh W_eq_dec relativeCwd sourceDirectory previousState now c w) as HI.
  destruct (isFresh1 c w) as [c1 f] eqn:F; simpl in IS, HI.
  match type of H with
  | context [loop ?rc w p (dependencies_of w) ?rp c1] =>
      destruct (loop rc w p (dependencies_of w) rp c1) as [[r1 c2]|] eqn:E;
        [|discriminate];
      destruct (loop_sem rc w p IH _ _ _ _ _ E) as (S & K & A1 & A2 & A3 & V);
      assert (Rp : workspace rp = workspace rep /\
                   loopsBackToParent rp = loopsBackToParent rep /\
                   filesWereFresh rp = Some f /\ dependenciesWereFresh rp = Some true)
        by (destruct f; repeat split)
  end.
  destruct Rp as (Rw & Rl & Rf & Rd).
  injection H as <- <- <-.
  split; [econstructor; rewrite F; exact S|].
  split; [|split; [rewrite A1, Rw; reflexivity | split; [rewrite A2, Rl; reflexivity|]]].
  - intros u; rewrite K, HI, orb_true_iff, Reach_inv; split.
    + intros [[?|Q]|X]; [left; assumption | | right; right; exact X].
      apply (W_eqb_spec W_eq_dec) in Q; right; left; exact Q.
    + intros [?|[->|X]]; [left; left; assumption | left; right | right; exact X].
      apply (W_eqb_spec W_eq_dec); reflexivity.
  - intros Sc.
    destruct (IS Sc) as [Fv Sc1].
    rewrite andb_true_iff, (V Sc1), A3, Rf, Rd; simpl; rewrite Fv.
    split.
    + intros [[_ D2] Fw] u Rc; apply Reach_inv in Rc as [->|(d & dw & I & R & N & Rc)].
      * destruct (verdict w); [reflexivity | discriminate].
      * exact (D2 d dw u I R N Rc).
    + intros All; split; [split; [reflexivity|] |].
      * intros d dw u I R N Rc; apply All, Reach_inv; right; eauto 10.
      * rewrite (All w (Reach_refl _ _)); reflexivity.
Qed.

(** *** From the path-restricted descent to plain reachability *)
Inductive Walk : W -> list D -> W -> Prop :=
| Walk_nil (w : W) : Walk w [] w
| Walk_cons (w : W) (d : D) (dw : W) (ds : list D) (u : W) :
    In d (dependencies_of w) -> tryWorkspaceByDescriptor d = Some dw ->
    Walk dw ds u -> Walk w (d :: ds) u.

Lemma reaches_walk (w u : W) : reach w u -> exists ds, Walk w ds u.
Proof.
  induction 1 as [w|w d dw u I R _ [ds Wk]]; [exists []; constructor|].
  exists (d :: ds); econstructor; eauto.
Qed.

Lemma walk_app (l1 l2 : list D) : forall w u,
  Walk w (l1 ++ l2) u <-> exists m, Walk w l1 m /\ Walk m l2 u.
Proof.
  induction l1 as [|d l1 IH]; intros w u; simpl.
  - split; [intros H; exists w; split; [constructor | exact H]|].
    intros (m & H1 & H2); inversion H1; subst; exact H2.
  - split.
    + intros H; inversion H as [|? ? dw ? ? I R Wk]; subst.
      apply IH in Wk as (m & H1 & H2); exists m; split; [econstructor; eauto | exact H2].
    + intros (m & H1 & H2); inversion H1 as [|? ? dw ? ? I R Wk]; subst.
      econstructor; [exact I | exact R | apply IH; eauto].
Qed.

Lemma walk_shorten (n : nat) : forall w ds u, List.length ds <= n -> Walk w ds u ->
  exists ds', NoDup ds' /\ Walk w ds' u.
Proof.
  induction n as [|n IH]; intros w ds u L Wk.
  - destruct ds; [exists []; split; [constructor | exact Wk] | simpl in L; lia].
  - destruct (ListDec.NoDup_dec D_eq_dec ds) as [Nd|Nd]; [exists ds; split; assumption|].
    destruct (ListDec.not_NoDup
                (fun x y => match D_eq_dec x y with left e => or_introl e
                                                   | right ne => or_intror ne end)
                Nd) as (a & l1 & l2 & l3 & ->).
    apply walk_app in Wk as (m1 & W1 & W2).
    inversion W2 as [|? ? z ? ? I1 R1 W3]; subst.
    apply walk_app in W3 as (m2 & W4 & W5).
    inversion W5 as [|? ? z' ? ? I2 R2 W6]; subst.
    rewrite R1 in R2; injection R2 as <-.
    apply (IH w (l1 ++ a :: l3) u).
    + pose proof (length_app l2 (a :: l3)); rewrite !length_app in L |- *;
      simpl in *; lia.
    + apply walk_app; exists m1; split; [exact W1 | econstructor; eauto].
Qed.

Lemma walk_Reach (w : W) (ds : list D) (u : W) : Walk w ds u ->
  forall path, NoDup ds -> (forall d, In d ds -> ~ In d path) -> Reach path w u.
Proof.
  induction 1 as [w|w d dw ds u I R Wk IH]; intros path Nd Dj; [constructor|].
  inversion Nd as [|? ? Nin Nd']; subst.
  econstructor; [exact I | exact R | apply Dj; left; reflexivity |].
  apply IH; [exact Nd'|].
  intros d' I' [<-|P]; [exact (Nin I') | exact (Dj d' (or_intror I') P)].
Qed.

Lemma Reach_reaches (path : list D) (w u : W) : Reach path w u -> reach w u.
Proof. induction 1; econstructor; eauto. Qed.

Lemma reaches_Reach (w u : W) : reach w u <-> Reach [] w u.
Proof.
  split; [|apply Reach_reaches].
  intros H; destruct (reaches_walk w u H) as [ds Wk].
  destruct (walk_shorten (List.length ds) w ds u (le_n _) Wk) as (ds' & Nd & Wk').
  apply (walk_Reach w ds' u Wk' [] Nd); intros d _ [].
Qed.

(** *** [WorkspaceAuditor.audit] *)
Lemma audit_sem (fuel : nat) (w : W) (c : Catalog W) (r : Report W) (c' : Catalog W) :
  auditW fuel w c = Some (r, c') ->
  Steps c c' /\
  (forall u, hasC c' u = true <-> hasC c u = true \/ reach w u) /\
  workspace r = w /\ loopsBackToParent r = None /\ (exists b, isFresh r = Some b) /\
  (sound c -> (isFresh r = Some true <-> forall u, reach w u -> verdict u = true)).
Proof.
  unfold audit; intros H.
  destruct (auditDep fuel w c [] (newReport w)) as [[[b r1] c1]|] eqn:E; [|discriminate].
  injection H as <- <-.
  destruct (auditDep_sem fuel _ _ _ _ _ _ _ E) as (S & K & Wr & Lr & V).
  split; [exact S|]; split.
  - intros u; rewrite K, reaches_Reach; reflexivity.
  - split; [simpl; rewrite Wr; reflexivity|].
    split; [simpl; rewrite Lr; reflexivity|].
    split; [eexists; reflexivity|].
    intros Sc; simpl; split.
    + intros Hb; injection Hb as Hb; intros u Rc.
      apply (proj1 (V Sc) Hb), reaches_Reach, Rc.
    + intros All; f_equal; apply (V Sc); intros u Rc; apply All, reaches_Reach, Rc.
Qed.

(** *** Shape of the [dependencies] maps *)
Definition shapeNode (n : Report W) : bool :=
  match dependencies n with
  | [] => true
  | [(k, _)] => String.eqb k (relativeCwd (workspace n))
  | _ => false
  end.

Definition RecMap (recurse : W -> Catalog W -> list D -> Report W -> AuditResult W) : Prop :=
  forall dw c p rep b r c',
    recurse dw c p rep = Some (b, r, c') -> dependencies rep = [] -> workspace rep = dw ->
    allReports shapeNode r = true.

Lemma shapeNode_spec (n : Report W) :
  shapeNode n = true <->
  dependencies n = [] \/ exists x, dependencies n = [(relativeCwd (workspace n), x)].
Proof.
  unfold shapeNode; destruct (dependencies n) as [|[k x] [|y m]]; split.
  - left; reflexivity.
  - reflexivity.
  - intros E; apply String.eqb_eq in E; subst; right; exists x; reflexivity.
  - intros [E|[x' E]]; [discriminate|]; injection E as -> ->; apply String.eqb_refl.
  - discriminate.
  - intros [E|[x' E]]; discriminate.
Qed.

Lemma shape_set (m : list (string * Report W)) (w : W) (child : Report W) :
  (m = [] \/ exists x, m = [(relativeCwd w, x)]) ->
  JsMap.set String.eqb m (relativeCwd w) child = [(relativeCwd w, child)].
Proof.
  intros [->|[x ->]]; simpl; [reflexivity|]; rewrite String.eqb_refl; reflexivity.
Qed.

Lemma loop_map recurse (w : W) (path : list D) :
  RecMap recurse ->
  forall ds report c r c',
    loop recurse w path ds report c = Some (r, c') ->
    workspace report = w -> shapeNode report = true ->
    forallb (fun p => allReports shapeNode (snd p)) (dependencies report) = true ->
    workspace r = w /\ shapeNode r = true /\
    forallb (fun p => allReports shapeNode (snd p)) (dependencies r) = true.
Proof.
  intros Hrec ds; induction ds as [|d ds IH]; intros report c r c' H Wr Sh Ch.
  - cbn [auditLoop] in H; injection H as <- <-; auto.
  - cbn [auditLoop] in H.
    destruct (tryWorkspaceByDescriptor d) as [dw|] eqn:R; [|exact (IH _ _ _ _ H Wr Sh Ch)].
    assert (Hset : forall (R0 child : Report W),
              workspace R0 = w -> dependencies R0 = dependencies report ->
              allReports shapeNode child = true ->
              let R1 := set_dependencies R0
                (JsMap.set String.eqb (dependencies R0) (relativeCwd w) child) in
              workspace R1 = w /\ shapeNode R1 = true /\
              forallb (fun p => allReports shapeNode (snd p)) (dependencies R1) = true).
    { intros R0 child W0 D0 Hc R1; subst R1.
      apply shapeNode_spec in Sh; rewrite Wr in Sh; rewrite D0.
      cbn [set_dependencies workspace dependencies]; rewrite (shape_set _ w child Sh).
      split; [exact W0|]; split.
      - unfold shapeNode; cbn [set_dependencies dependencies workspace].
        rewrite W0, String.eqb_refl; reflexivity.
      - simpl; rewrite Hc; reflexivity. }
    destruct (inPath path d) eqn:P.
    + destruct (Hset report (cycleLeaf dw) Wr eq_refl eq_refl) as (A & B & C).
      exact (IH _ _ _ _ H A B C).
    + match type of H with
      | context [recurse ?a ?b ?p ?e] =>
          destruct (recurse a b p e) as [[[b1 r1] c1]|] eqn:E; [|discriminate];
          pose proof (Hrec _ _ _ _ _ _ _ E eq_refl eq_refl) as Hr1
      end.
      destruct (isFresh1 c1 dw) as [c2 f].
      rewrite allReports_unfold in Hr1.
      destruct b1, f; cbn beta iota zeta in H;
        match type of H with
        | context [set_dependencies ?R0 (JsMap.set String.eqb _ (relativeCwd w) ?child)] =>
            destruct (Hset R0 child Wr eq_refl
                        ltac:(rewrite allReports_unfold; exact Hr1)) as (A & B & C);
            exact (IH _ _ _ _ H A B C)
        end.
Qed.

Lemma auditDep_map (fuel : nat) : RecMap (auditDep fuel).
Proof.
  induction fuel as [|fuel IH]; intros w c p rep b r c' H Dr Wr; [discriminate|].
  cbn [auditDependencyWorkspace] in H.
  destruct (isFresh1 c w) as [c1 f] eqn:F.
  match type of H with
  | context [loop ?rc w p (dependencies_of w) ?rp c1] =>
      destruct (loop rc w p (dependencies_of w) rp c1) as [[r1 c2]|] eqn:E;
        [|discriminate];
      assert (Hw : workspace rp = w) by (destruct f; exact Wr);
      assert (Hd : dependencies rp = []) by (destruct f; exact Dr);
      assert (Hs : shapeNode rp = true) by (unfold shapeNode; rewrite Hd; reflexivity);
      destruct (loop_map rc w p IH _ _ _ _ _ E Hw Hs ltac:(rewrite Hd; reflexivity))
        as (A & B & C)
  end.
  injection H as <- <- <-.
  rewrite allReports_unfold, B, C; reflexivity.
Qed.

(** X5: an audit runs the detector on exactly the workspaces reachable
    from the audited one that the catalog had not checked yet, each at
    most once, diamonds and cycles included: if every workspace was handed
    to the detector once when cached and never otherwise before the audit,
    the same holds after it, and the cached workspaces after the audit are
    those cached before plus those reachable from the audited one. *)
Theorem audit_detector_runs (fuel : nat) (w : W) (c : Catalog W)
    (r : Report W) (c' : Catalog W) :
  CountInv W_eq_dec c ->
  audit W W_eq_dec D D_eq_dec relativeCwd dependencies_of tryWorkspaceByDescriptor
    sourceDirectory previousState now fuel w c = Some (r, c') ->
  CountInv W_eq_dec c' /\
  (forall u, JsMap.has (W_eqb W W_eq_dec) (_catalog c') u = true <->
     JsMap.has (W_eqb W W_eq_dec) (_catalog c) u = true \/
     reaches dependencies_of tryWorkspaceByDescriptor w u).
Proof.
  intros I H; destruct (audit_sem fuel w c r c' H) as (S & K & _).
  split; [|exact K].
  revert S I; apply Steps_inv; intros c0 w0 I0.
  exact (isFresh_inv W_eq_dec relativeCwd sourceDirectory previousState now c0 w0 I0).
Qed.

(** X6: from a catalog whose cached answers are the detector's verdicts
    (an empty one, say), [WorkspaceAuditor.audit] reports the workspace
    fresh exactly when the detector finds every workspace reachable from
    it through resolved dependency descriptors fresh, cycles included;
    the catalog it leaves behind still only holds detector verdicts. *)
Theorem audit_verdict_reachable (fuel : nat) (w : W) (c : Catalog W)
    (r : Report W) (c' : Catalog W) :
  catalogSound W_eq_dec relativeCwd sourceDirectory previousState now c ->
  audit W W_eq_dec D D_eq_dec relativeCwd dependencies_of tryWorkspaceByDescriptor
    sourceDirectory previousState now fuel w c = Some (r, c') ->
  (exists b, isFresh r = Some b) /\
  (isFresh r = Some true <->
     forall u, reaches dependencies_of tryWorkspaceByDescriptor w u ->
       detectorVerdict relativeCwd sourceDirectory previousState now u = true) /\
  catalogSound W_eq_dec relativeCwd sourceDirectory previousState now c'.
Proof.
  intros Sc H; destruct (audit_sem fuel w c r c' H) as (S & _ & _ & _ & B & V).
  split; [exact B|]; split; [exact (V Sc) | exact (Steps_sound c c' S Sc)].
Qed.

(** X9: every node of a report returned by [WorkspaceAuditor.audit] has
    at most one entry in its [dependencies] map, keyed by the
    [relativeCwd] of the node's own workspace (each dependency report is
    stored under the parent's key and replaces the previous one). *)
Theorem audit_reports_hold_one_dependency (fuel : nat) (w : W) (c : Catalog W)
    (r : Report W) (c' : Catalog W) :
  audit W W_eq_dec D D_eq_dec relativeCwd dependencies_of tryWorkspaceByDescriptor
    sourceDirectory previousState now fuel w c = Some (r, c') ->
  forall node, InTree node r ->
    dependencies node = [] \/
    exists child, dependencies node = [(relativeCwd (workspace node), child)].
Proof.
  unfold audit; intros H node T.
  destruct (auditDep fuel w c [] (newReport w)) as [[[b r1] c1]|] eqn:E; [|discriminate].
  injection H as <- <-.
  pose proof (auditDep_map fuel _ _ _ _ _ _ _ E eq_refl eq_refl) as Hm.
  apply shapeNode_spec.
  apply (allReports_InTree shapeNode (set_isFresh r1 (Some b)) node); [|exact T].
  rewrite allReports_unfold in Hm |- *; exact Hm.
Qed.
End AuditSemantics.

(** ** What the inspector emits *)

(** Induction over report trees, with a hypothesis for every stored
    dependency report. *)
Definition Report_ind' {W : Type} (P : Report W -> Prop)
    (H : forall w a b c d e m, Forall (fun p => P (snd p)) m -> P (mkReport w a b c d e m))
    : forall r, P r :=
  fix F (r : Report W) : P r :=
    match r as r0 return P r0 with
    | mkReport w a b c d e m =>
        H w a b c d e m
          ((fix G (l : list (string * Report W)) : Forall (fun p => P (snd p)) l :=
              match l as l0 return Forall (fun p => P (snd p)) l0 with
              | [] => Forall_nil _
              | p :: l' =>
                  Forall_cons p
                    (match p as p0 return P (snd p0) with (k, child) => F child end)
                    (G l')
              end) m)
    end.

Section InspectorFacts.
Context {W : Type}.

(** X8: [_unrollWorkspaceReport] emits a workspace only for a node of the
    report tree that is not a cycle node, is not marked fresh, and whose
    dependencies or files were not fresh; in particular it never emits
    anything for a report tree whose nodes are all fresh or cycle nodes. *)
Theorem unroll_instructions_from_stale_nodes (r : Report W) (x : W) :
  In x (unrollWorkspaceReport r) ->
  exists node, InTree node r /\ workspace node = x /\
    truthy (loopsBackToParent node) = false /\ truthy (isFresh node) = false /\
    (truthy (dependenciesWereFresh node) = false \/ truthy (filesWereFresh node) = false).
Proof.
  revert x; induction r as [w a b c d e m IHm] using Report_ind'; intros x.
  rewrite unrollWorkspaceReport_unfold;
    cbn [loopsBackToParent isFresh dependenciesWereFresh filesWereFresh workspace dependencies].
  rewrite Forall_forall in IHm.
  destruct (truthy b) eqn:Lb; [intros []|].
  destruct (truthy a) eqn:Ia; [intros []|].
  destruct (truthy c) eqn:Dc; cbn [negb].
  - destruct (truthy d) eqn:Fd; cbn [negb]; [intros []|].
    intros [<-|[]]; exists (mkReport w a b c d e m); split; [constructor|].
    cbn; rewrite Lb, Ia, Fd; auto.
  - intros [<-|Hin].
    + exists (mkReport w a b c d e m); split; [constructor|].
      cbn; rewrite Lb, Ia, Dc; auto.
    + apply in_flat_map in Hin as [[k child] [Hkc Hx]].
      destruct (IHm (k, child) Hkc x Hx) as (n & T & Hn).
      exists n; split; [eapply InTree_child; [exact Hkc | exact T] | exact Hn].
Qed.

(** The root of an audit: nothing is emitted iff it is fresh, and a
    root that is not fresh is emitted. *)
Lemma root_unroll (r : Report W) :
  loopsBackToParent r = None -> goodNode r = true ->
  (unrollWorkspaceReport r = [] <-> isFresh r = Some true) /\
  (isFresh r <> Some true -> In (workspace r) (unrollWorkspaceReport r)).
Proof.
  intros L G; unfold goodNode, consistentNode in G; rewrite L in G; simpl in G.
  rewrite unrollWorkspaceReport_unfold, L; simpl.
  destruct (isFresh r) as [i|], (dependenciesWereFresh r) as [dd|],
    (filesWereFresh r) as [ff|]; try discriminate.
  apply andb_true_iff in G as [G _]; apply eqb_prop in G; subst i.
  destruct dd, ff; simpl.
  - split; [split; reflexivity | intros N; contradiction N; reflexivity].
  - split; [split; discriminate | intros _; left; reflexivity].
  - split; [split; discriminate | intros _; left; reflexivity].
  - split; [split; discriminate | intros _; left; reflexivity].
Qed.
End InspectorFacts.

(** ** The audited workspace's build instructions *)
Section AuditUnroll.
Context {W : Type} (W_eq_dec : forall x y : W, {x = y} + {x <> y})
  {D : Type} (D_eq_dec : forall x y : D, {x = y} + {x <> y})
  (relativeCwd : W -> string) (dependencies_of : W -> list D)
  (tryWorkspaceByDescriptor : D -> option W)
  (sourceDirectory : W -> list Detector.Entry)
  (previousState : option (string -> option RunLogEntry)) (now : Z).

Local Abbreviation eqbW := (W_eqb W W_eq_dec).
Local Abbreviation auditW :=
  (audit W W_eq_dec D D_eq_dec relativeCwd dependencies_of
     tryWorkspaceByDescriptor sourceDirectory previousState now).
Local Abbreviation verdict := (detectorVerdict relativeCwd sourceDirectory previousState now).
Local Abbreviation sound := (catalogSound W_eq_dec relativeCwd sourceDirectory previousState now).
Local Abbreviation reach := (reaches dependencies_of tryWorkspaceByDescriptor).

(** What is known of the report [WorkspaceAuditor.audit] returns. *)
Definition RootOk (u : W) (r : Report W) : Prop :=
  workspace r = u /\ loopsBackToParent r = None /\ allReports goodNode r = true /\
  (isFresh r = Some true <-> forall v, reach u v -> verdict v = true).

Lemma audit_root (fuel : nat) (w : W) (c : Catalog W) (r : Report W) (c' : Catalog W) :
  sound c -> auditW fuel w c = Some (r, c') -> RootOk w r /\ sound c'.
Proof.
  intros Sc H.
  destruct (audit_sem W_eq_dec D_eq_dec relativeCwd dependencies_of tryWorkspaceByDescriptor
              sourceDirectory previousState now fuel w c r c' H)
    as (S & _ & Wr & Lr & _ & V).
  split; [|exact (Steps_sound W_eq_dec relativeCwd sourceDirectory previousState now c c' S Sc)].
  split; [exact Wr | split; [exact Lr | split; [|exact (V Sc)]]].
  exact (audit_good W_eq_dec D_eq_dec relativeCwd dependencies_of tryWorkspaceByDescriptor
           sourceDirectory previousState now fuel w c r c' H).
Qed.

(** X7: from a catalog whose cached answers are detector verdicts, the
    build instructions [_unrollWorkspaceReport] draws from the report of
    [WorkspaceAuditor.audit] are empty exactly when the detector finds
    every workspace reachable from the audited one fresh; when one of
    them is stale, the audited workspace is among the instructions. *)
Theorem audit_unroll_empty_iff_fresh (fuel : nat) (w : W) (c : Catalog W)
    (r : Report W) (c' : Catalog W) :
  catalogSound W_eq_dec relativeCwd sourceDirectory previousState now c ->
  audit W W_eq_dec D D_eq_dec relativeCwd dependencies_of tryWorkspaceByDescriptor
    sourceDirectory previousState now fuel w c = Some (r, c') ->
  (unrollWorkspaceReport r = [] <->
     forall v, reaches dependencies_of tryWorkspaceByDescriptor w v ->
       detectorVerdict relativeCwd sourceDirectory previousState now v = true) /\
  (forall v, reaches dependencies_of tryWorkspaceByDescriptor w v ->
     detectorVerdict relativeCwd sourceDirectory previousState now v = false ->
     In w (unrollWorkspaceReport r)).
Proof.
  intros Sc H; destruct (audit_root fuel w c r c' Sc H) as [(Wr & Lr & G & V) _].
  rewrite allReports_unfold in G; apply andb_true_iff in G as [G _].
  destruct (root_unroll r Lr G) as [U N].
  split.
  - rewrite U; exact V.
  - intros v Rv Fv; rewrite <- Wr; apply N; intros F.
    rewrite (proj1 V F v Rv) in Fv; discriminate.
Qed.

End AuditUnroll.

(** ** What [ProjectAuditor.audit] does with the project configuration *)
Section ConfiguredFacts.
Context {W : Type} (W_eq_dec : forall x y : W, {x = y} + {x <> y})
  {D : Type} (D_eq_dec : forall x y : D, {x = y} + {x <> y})
  (relativeCwd : W -> string) (dependencies_of : W -> list D)
  (tryWorkspaceByDescriptor : D -> option W)
  (sourceDirectory : W -> list Detector.Entry) (now : Z).

Local Abbreviation eqbW := (W_eqb W W_eq_dec).

(** No workspace's ["<relativeCwd>#build"] key is a declared setting. *)
Local Definition Undeclared (configuration : Configuration) (ws : list W) : Prop :=
  forall w, In w ws -> configuration_get configuration (relativeCwd w ++ "#build") = None.

Lemma catalog_cfg_miss (configuration : Configuration) (w : W) :
  configuration_get configuration (relativeCwd w ++ "#build") = None ->
  catalog_isFresh_cfg W W_eq_dec relativeCwd sourceDirectory now configuration
    emptyCatalog w = None.
Proof.
  intros E; unfold catalog_isFresh_cfg.
  change (catalog_wasChecked W W_eq_dec emptyCatalog w) with false; rewrite E; reflexivity.
Qed.

Lemma auditC_throws (configuration : Configuration) (fuel : nat) (w : W) :
  configuration_get configuration (relativeCwd w ++ "#build") = None ->
  auditC W W_eq_dec D D_eq_dec relativeCwd dependencies_of tryWorkspaceByDescriptor
    sourceDirectory now configuration (S fuel) w emptyCatalog = Throws.
Proof.
  intros E; unfold auditC; cbn [auditDependencyWorkspaceC].
  rewrite (catalog_cfg_miss configuration w E); reflexivity.
Qed.

Lemma auditSequential_throws (configuration : Configuration) (top : W) (fuel : nat)
    (targets : list string) (ws : list W) :
  Undeclared configuration ws ->
  forall pend,
  auditSequential W W_eq_dec D D_eq_dec relativeCwd dependencies_of
    tryWorkspaceByDescriptor sourceDirectory now configuration top (S fuel) targets ws
    emptyCatalog pend =
  if existsb (isTarget W W_eq_dec relativeCwd top targets) ws then Throws
  else Returns pend.
Proof.
  induction ws as [|w ws IH]; intros U pend; [reflexivity|].
  assert (U' : Undeclared configuration ws) by (intros x Hx; apply U; right; exact Hx).
  cbn [auditSequential existsb]; unfold isTarget at 1.
  destruct (eqbW w top); cbn [negb andb orb]; [apply (IH U')|].
  destruct (existsb (String.eqb (relativeCwd w)) targets); cbn [negb orb];
    [|apply (IH U')].
  rewrite (auditC_throws configuration fuel w (U w (or_introl eq_refl))); reflexivity.
Qed.

Lemma set_rejected (m : list (W * Started)) (w : W) :
  Forall (fun p => snd p = Rejected) m ->
  Forall (fun p => snd p = Rejected) (JsMap.set eqbW m w Rejected) /\
  JsMap.set eqbW m w Rejected <> [].
Proof.
  induction m as [|[k v] m IH]; intros F; simpl.
  - split; [constructor; [reflexivity | constructor] | discriminate].
  - inversion F as [|? ? Fk Fm]; subst.
    destruct (eqbW w k); (split; [|discriminate]).
    + constructor; [reflexivity | exact Fm].
    + constructor; [exact Fk | exact (proj1 (IH Fm))].
Qed.

Lemma startAudits_rejected (configuration : Configuration) (top : W)
    (targets : list string) (ws : list W) :
  Undeclared configuration ws ->
  forall pend, Forall (fun p => snd p = Rejected) pend ->
  exists res,
    startAudits W W_eq_dec relativeCwd sourceDirectory now configuration top targets ws
      emptyCatalog pend = (emptyCatalog, res) /\
    Forall (fun p => snd p = Rejected) res /\
    (res = [] <-> pend = [] /\ existsb (isTarget W W_eq_dec relativeCwd top targets) ws = false).
Proof.
  induction ws as [|w ws IH]; intros U pend F.
  - exists pend; split; [reflexivity | split; [exact F | simpl; tauto]].
  - assert (U' : Undeclared configuration ws) by (intros x Hx; apply U; right; exact Hx).
    cbn [startAudits existsb]; unfold isTarget at 1.
    destruct (eqbW w top); cbn [negb andb orb]; [apply (IH U' pend F)|].
    destruct (existsb (String.eqb (relativeCwd w)) targets); cbn [negb orb];
      [|apply (IH U' pend F)].
    unfold auditStart.
    change (catalog_wasChecked W W_eq_dec emptyCatalog w) with false.
    rewrite (U w (or_introl eq_refl)).
    destruct (set_rejected pend w F) as [F' N].
    destruct (IH U' _ F') as (res & E & Fr & Er).
    exists res; split; [exact E | split; [exact Fr|]].
    split; [intros R; apply Er in R as [R _]; contradiction | intros [_ B]; discriminate B].
Qed.

(** With a configuration that declares none of the workspaces'
    ["<relativeCwd>#build"] keys, [ProjectAuditor.audit] throws, in
    either mode, as soon as one workspace is audited, and otherwise
    returns an empty report. *)
Lemma projectAuditor_audit_undeclared (configuration : Configuration) (top : W)
    (sequential : bool) (workspaces : list W) (fuel : nat) (targets : list string) :
  Undeclared configuration workspaces ->
  projectAuditor_audit W W_eq_dec D D_eq_dec relativeCwd dependencies_of
    tryWorkspaceByDescriptor sourceDirectory now configuration top sequential
    workspaces (S fuel) targets =
  if existsb (isTarget W W_eq_dec relativeCwd top targets) workspaces then Throws
  else Returns [].
Proof.
  intros U; unfold projectAuditor_audit; destruct sequential.
  - rewrite (auditSequential_throws configuration top fuel targets workspaces U []).
    destruct (existsb _ workspaces); reflexivity.
  - destruct (startAudits_rejected configuration top targets workspaces U [] (Forall_nil _))
      as (res & E & Fr & Er).
    rewrite E; cbn [snd].
    destruct res as [|[k s] res].
    + destruct (proj1 Er eq_refl) as [_ ->]; reflexivity.
    + inversion Fr as [|? ? Fk _]; subst; simpl in Fk; subst s.
      destruct (existsb _ workspaces) eqn:X; [reflexivity|].
      assert (B : (k, Rejected) :: res = []) by (apply Er; split; reflexivity).
      discriminate B.
Qed.

Lemma existsb_congr {A : Type} (f g : A -> bool) (l : list A) :
  (forall x, In x l -> f x = g x) -> existsb f l = existsb g l.
Proof.
  induction l as [|x l IH]; intros H; simpl; [reflexivity|].
  rewrite (H x (or_introl eq_refl)), IH; [reflexivity|].
  intros y Hy; apply H; right; exact Hy.
Qed.

(** C10 (the code): [ProjectAuditor.audit] loads the project's
    configuration as the previous run log; when no workspace's
    ["<relativeCwd>#build"] key is a declared setting, the audit, in
    either mode, throws as soon as one targeted workspace other than the
    top-level one exists, and otherwise returns an empty report: it never
    returns a report that holds an entry. *)
Theorem project_audit_throws_on_targets (configuration : Configuration) (top : W)
    (sequential : bool) (workspaces : list W) (fuel : nat) (targets : list string) :
  (forall w, In w workspaces ->
     configuration_get configuration (relativeCwd w ++ "#build") = None) ->
  projectAuditor_audit W W_eq_dec D D_eq_dec relativeCwd dependencies_of
    tryWorkspaceByDescriptor sourceDirectory now configuration top sequential
    workspaces (S fuel) targets =
  if existsb (isTarget W W_eq_dec relativeCwd top targets) workspaces then Throws
  else Returns [].
Proof.
  intros U; exact (projectAuditor_audit_undeclared configuration top sequential
                     workspaces fuel targets U).
Qed.

(** X11: [ProjectAuditor.forProjectPath] throws when no project is found.
    Otherwise, with a configuration that declares none of the workspaces'
    ["<relativeCwd>#build"] keys, the audit of the auditor it builds, in
    either mode, throws whenever the path leads to a workspace of the
    project and the project has a workspace other than the top-level one;
    it returns an empty report when the path leads to no workspace, or
    when the project's only workspace is the top-level one. *)
Theorem forProjectPath_audit_throws (ws : list W) (top : W) (found : option W)
    (configuration : Configuration) (sequential : bool) (fuel : nat) :
  (forall w, In w ws -> configuration_get configuration (relativeCwd w ++ "#build") = None) ->
  (forall v, found = Some v -> In v ws) ->
  forProjectPath W_eq_dec relativeCwd None found = None /\
  exists targets,
    forProjectPath W_eq_dec relativeCwd (Some (ws, top)) found = Some (ws, top, targets) /\
    projectAuditor_audit W W_eq_dec D D_eq_dec relativeCwd dependencies_of
      tryWorkspaceByDescriptor sourceDirectory now configuration top sequential
      ws (S fuel) targets =
    match found with
    | Some _ => if existsb (fun w => negb (eqbW w top)) ws then Throws else Returns []
    | None => Returns []
    end.
Proof.
  intros U Fin; split; [reflexivity|].
  eexists; split; [reflexivity|].
  rewrite (projectAuditor_audit_undeclared configuration top sequential ws fuel _ U).
  destruct found as [v|].
  - specialize (Fin v eq_refl).
    destruct (eqbW v top) eqn:T.
    + rewrite (existsb_congr _ (fun w => negb (eqbW w top)) ws); [reflexivity|].
      intros x Hx; unfold isTarget.
      replace (existsb (String.eqb (relativeCwd x)) (map relativeCwd ws)) with true;
        [apply andb_true_r|].
      symmetry; apply existsb_exists; exists (relativeCwd x).
      split; [apply in_map, Hx | apply String.eqb_refl].
    + assert (Tv : isTarget W W_eq_dec relativeCwd top [relativeCwd v] v = true)
        by (unfold isTarget; rewrite T; simpl; rewrite String.eqb_refl; reflexivity).
      replace (existsb (isTarget W W_eq_dec relativeCwd top [relativeCwd v]) ws) with true
        by (symmetry; apply existsb_exists; exists v; split; [exact Fin | exact Tv]).
      replace (existsb (fun w => negb (eqbW w top)) ws) with true
        by (symmetry; apply existsb_exists; exists v; split; [exact Fin | rewrite T; reflexivity]).
      reflexivity.
  - rewrite (existsb_congr _ (fun _ => false) ws);
      [|intros x _; unfold isTarget; apply andb_false_r].
    clear U Fin; induction ws as [|x ws IH]; [reflexivity | exact IH].
Qed.
End ConfiguredFacts.


(** ** Concrete runs *)

(** Witness of C4, on the diamond with B stale. *)
Lemma audit_isFresh_equation_witness :
  match Examples.exAudit Examples.diamondDeps [2] 1 with
  | Some (r, _) => exists d f, dependenciesWereFresh r = Some d /\
      filesWereFresh r = Some f /\ isFresh r = Some (d && f)
  | None => False
  end.
Proof.
  destruct (Examples.exAudit Examples.diamondDeps [2] 1) as [[r c']|] eqn:E.
  - pose proof E as E'; vm_compute in E'; injection E' as Er Ec.
    apply (audit_isFresh_equation Nat.eq_dec Nat.eq_dec Examples.exRelativeCwd
      Examples.diamondDeps Examples.exResolve (Examples.exSource [2])
      Examples.exPrevious Examples.exNow 5 1 emptyCatalog r c' E r (InTree_here r)).
    rewrite <- Er; reflexivity.
  - vm_compute in E; discriminate.
Defined.

(** Witness of C7, on the cycle A -> B -> A with its two descriptors. *)
Lemma audit_terminates_marks_cycles_witness :
  audit nat Nat.eq_dec nat Nat.eq_dec Examples.exRelativeCwd Examples.cycleDeps
    Examples.exResolve (Examples.exSource []) Examples.exPrevious Examples.exNow
    (S (List.length [11; 12])) 1 emptyCatalog <> None.
Proof.
  apply (proj1 (audit_terminates_marks_cycles Nat.eq_dec Nat.eq_dec
    Examples.exRelativeCwd Examples.cycleDeps Examples.exResolve
    (Examples.exSource []) Examples.exPrevious Examples.exNow [11; 12]
    ltac:(intros w d H; destruct w as [|[|[|w]]]; simpl in H |- *; intuition))).
Defined.

(** Witness of C8: on the cycle A -> B -> A, the node stored for B when it
    is reached again is a bare leaf. *)
Lemma audit_cycle_nodes_are_leaves_witness :
  match Examples.exAudit Examples.cycleDeps [] 1 with
  | Some (r, _) => exists node, InTree node r /\ workspace node = 2 /\
      loopsBackToParent node = Some true /\ isFresh node = None /\
      dependencies node = [] /\ unrollWorkspaceReport node = []
  | None => False
  end.
Proof.
  destruct (Examples.exAudit Examples.cycleDeps [] 1) as [[r c']|] eqn:E.
  - pose proof E as E'; vm_compute in E'; injection E' as Er Ec.
    assert (T : InTree (cycleLeaf 2) r).
    { rewrite <- Er.
      eapply InTree_child; [simpl; left; reflexivity|].
      eapply InTree_child; [simpl; left; reflexivity|].
      eapply InTree_child; [simpl; left; reflexivity|].
      apply InTree_here. }
    destruct (proj1 (audit_cycle_nodes_are_leaves Nat.eq_dec Nat.eq_dec
      Examples.exRelativeCwd Examples.cycleDeps Examples.exResolve
      (Examples.exSource []) Examples.exPrevious Examples.exNow 5 1 emptyCatalog
      r c' E) (cycleLeaf 2) T eq_refl) as (H1 & H2 & H3 & H4 & H5 & H6).
    exists (cycleLeaf 2); repeat split; assumption.
  - vm_compute in E; discriminate.
Defined.

(** Witness of C10: the diamond project as shipped, target A, in both
    modes. *)
Lemma project_audit_throws_on_targets_witness :
  (forall w, In w Examples.exWorkspaces ->
     configuration_get Examples.exConfiguration (Examples.exRelativeCwd w ++ "#build") = None) /\
  Examples.exProjectAuditor Examples.diamondDeps [2] true ["packages/a"%string] = Throws /\
  Examples.exProjectAuditor Examples.diamondDeps [2] false ["packages/a"%string] = Throws.
Proof.
  assert (U : forall w, In w Examples.exWorkspaces ->
     configuration_get Examples.exConfiguration (Examples.exRelativeCwd w ++ "#build") = None)
    by (intros w [<-|[<-|[<-|[<-|[]]]]]; reflexivity).
  split; [exact U|]; unfold Examples.exProjectAuditor; split;
    rewrite (project_audit_throws_on_targets Nat.eq_dec Nat.eq_dec Examples.exRelativeCwd
      Examples.diamondDeps Examples.exResolve (Examples.exSource [2]) Examples.exNow
      Examples.exConfiguration 0 _ Examples.exWorkspaces 4 ["packages/a"%string] U);
    reflexivity.
Defined.

(** Witness of X7, on the diamond with B stale, from an empty catalog. *)
Lemma audit_unroll_empty_iff_fresh_witness :
  match Examples.exAudit Examples.diamondDeps [2] 1 with
  | Some (r, _) =>
      (unrollWorkspaceReport r = [] <->
         forall v, reaches Examples.diamondDeps Examples.exResolve 1 v ->
           detectorVerdict Examples.exRelativeCwd (Examples.exSource [2])
             Examples.exPrevious Examples.exNow v = true) /\
      (forall v, reaches Examples.diamondDeps Examples.exResolve 1 v ->
         detectorVerdict Examples.exRelativeCwd (Examples.exSource [2])
           Examples.exPrevious Examples.exNow v = false ->
         In 1 (unrollWorkspaceReport r))
  | None => False
  end.
Proof.
  destruct (Examples.exAudit Examples.diamondDeps [2] 1) as [[r c']|] eqn:E.
  - exact (audit_unroll_empty_iff_fresh Nat.eq_dec Nat.eq_dec Examples.exRelativeCwd
      Examples.diamondDeps Examples.exResolve (Examples.exSource [2])
      Examples.exPrevious Examples.exNow 5 1 emptyCatalog r c'
      (emptyCatalog_sound Nat.eq_dec Examples.exRelativeCwd (Examples.exSource [2])
         Examples.exPrevious Examples.exNow) E).
  - vm_compute in E; discriminate.
Defined.

(** Witness of X11: the path leads to workspace A of the diamond project,
    audited with [sequential: false]. *)
Lemma forProjectPath_audit_throws_witness :
  forProjectPath Nat.eq_dec Examples.exRelativeCwd None (Some 1) = None /\
  exists targets,
    forProjectPath Nat.eq_dec Examples.exRelativeCwd (Some (Examples.exWorkspaces, 0)) (Some 1)
      = Some (Examples.exWorkspaces, 0, targets) /\
    projectAuditor_audit nat Nat.eq_dec nat Nat.eq_dec Examples.exRelativeCwd
      Examples.diamondDeps Examples.exResolve (Examples.exSource [2]) Examples.exNow
      Examples.exConfiguration 0 false Examples.exWorkspaces 5 targets = Throws.
Proof.
  apply (forProjectPath_audit_throws Nat.eq_dec Nat.eq_dec Examples.exRelativeCwd
    Examples.diamondDeps Examples.exResolve (Examples.exSource [2]) Examples.exNow
    Examples.exWorkspaces 0 (Some 1) Examples.exConfiguration false 4).
  - intros w [<-|[<-|[<-|[<-|[]]]]]; reflexivity.
  - intros v Hv; injection Hv as <-; right; left; reflexivity.
Defined.

(** Witness of X2: a file with [mtimeMs = 200] inside a sub-folder,
    against a baseline of 100. *)
Lemma detector_newer_file_not_fresh_witness :
  In 200%Z (Detector.fileTimes [Detector.EDir [Detector.EFile 200%Z]; Detector.EOther]) /\
  (100 < 200)%Z /\
  Detector.isFresh [Detector.EDir [Detector.EFile 200%Z]; Detector.EOther] 100%Z = false.
Proof.
  split; [simpl; left; reflexivity|]; split; [lia|].
  apply (detector_newer_file_not_fresh _ 100%Z 200%Z); [simpl; left; reflexivity | lia].
Defined.

(** Witness of X3: the same two files, listed in another order and one
    of them inside a sub-folder. *)
Lemma detector_depends_only_on_file_times_witness :
  Detector.getLastModifiedForFolder [Detector.EFile 5%Z; Detector.EDir [Detector.EFile 7%Z]] =
    Detector.getLastModifiedForFolder [Detector.EFile 7%Z; Detector.EFile 5%Z] /\
  (forall lastModified,
     Detector.isFresh [Detector.EFile 5%Z; Detector.EDir [Detector.EFile 7%Z]] lastModified =
     Detector.isFresh [Detector.EFile 7%Z; Detector.EFile 5%Z] lastModified).
Proof.
  apply detector_depends_only_on_file_times; simpl; apply perm_swap.
Defined.

(** Witness of X5, on the diamond from an empty catalog. *)
Lemma audit_detector_runs_witness :
  match Examples.exAudit Examples.diamondDeps [2] 1 with
  | Some (r, c') => CountInv Nat.eq_dec c' /\
      (forall u, JsMap.has (W_eqb nat Nat.eq_dec) (_catalog c') u = true <->
         JsMap.has (W_eqb nat Nat.eq_dec) (_catalog (@emptyCatalog nat)) u = true \/
         reaches Examples.diamondDeps Examples.exResolve 1 u)
  | None => False
  end.
Proof.
  destruct (Examples.exAudit Examples.diamondDeps [2] 1) as [[r c']|] eqn:E.
  - exact (audit_detector_runs Nat.eq_dec Nat.eq_dec Examples.exRelativeCwd
      Examples.diamondDeps Examples.exResolve (Examples.exSource [2])
      Examples.exPrevious Examples.exNow 5 1 emptyCatalog r c' (fun u => eq_refl) E).
  - vm_compute in E; discriminate.
Defined.

(** Witness of X6, on the diamond with B stale, from an empty catalog. *)
Lemma audit_verdict_reachable_witness :
  match Examples.exAudit Examples.diamondDeps [2] 1 with
  | Some (r, c') => (exists b, isFresh r = Some b) /\
      (isFresh r = Some true <->
         forall u, reaches Examples.diamondDeps Examples.exResolve 1 u ->
           detectorVerdict Examples.exRelativeCwd (Examples.exSource [2])
             Examples.exPrevious Examples.exNow u = true) /\
      catalogSound Nat.eq_dec Examples.exRelativeCwd (Examples.exSource [2])
        Examples.exPrevious Examples.exNow c'
  | None => False
  end.
Proof.
  destruct (Examples.exAudit Examples.diamondDeps [2] 1) as [[r c']|] eqn:E.
  - exact (audit_verdict_reachable Nat.eq_dec Nat.eq_dec Examples.exRelativeCwd
      Examples.diamondDeps Examples.exResolve (Examples.exSource [2])
      Examples.exPrevious Examples.exNow 5 1 emptyCatalog r c'
      (emptyCatalog_sound Nat.eq_dec Examples.exRelativeCwd (Examples.exSource [2])
         Examples.exPrevious Examples.exNow) E).
  - vm_compute in E; discriminate.
Defined.

(** Witness of X9, on the diamond. *)
Lemma audit_reports_hold_one_dependency_witness :
  match Examples.exAudit Examples.diamondDeps [2] 1 with
  | Some (r, _) => forall node, InTree node r ->
      dependencies node = [] \/
      exists child, dependencies node = [(Examples.exRelativeCwd (workspace node), child)]
  | None => False
  end.
Proof.
  destruct (Examples.exAudit Examples.diamondDeps [2] 1) as [[r c']|] eqn:E.
  - exact (audit_reports_hold_one_dependency Nat.eq_dec Nat.eq_dec Examples.exRelativeCwd
      Examples.diamondDeps Examples.exResolve (Examples.exSource [2])
      Examples.exPrevious Examples.exNow 5 1 emptyCatalog r c' E).
  - vm_compute in E; discriminate.
Defined.

(** Witness of X8: a root whose dependencies were not fresh, over a
    dependency whose files were not fresh; the dependency is emitted. *)
Lemma unroll_instructions_from_stale_nodes_witness :
  exists node,
    InTree node (mkReport 1 (Some false) (Some false) (Some false) (Some true) None
                   [("packages/a"%string,
                     mkReport 2 (Some false) (Some false) (Some true) (Some false) None [])]) /\
    workspace node = 2 /\
    truthy (loopsBackToParent node) = false /\ truthy (isFresh node) = false /\
    (truthy (dependenciesWereFresh node) = false \/ truthy (filesWereFresh node) = false).
Proof.
  apply unroll_instructions_from_stale_nodes; simpl; auto.
Defined.

(** C1 (the code at the failing input): A depends on B then C, both
    workspaces of the project, yet A's report holds one entry, keyed by A's
    own [relativeCwd], which is C's report: B's report was overwritten. *)
Lemma diamond_report_keeps_one_child :
  map Examples.exResolve (Examples.diamondDeps 1) = [Some 2; Some 3] /\
  option_map (fun p => map (fun kv => (fst kv, workspace (snd kv))) (dependencies (fst p)))
    (Examples.exAudit Examples.diamondDeps [2] 1) = Some [("packages/a"%string, 3)].
Proof. split; vm_compute; reflexivity. Qed.


(** C3 (the code at the failing input): A depends on B, B has no
    dependencies and stale files; B's nested report says
    [dependenciesWereFresh = false]. *)
Lemma nested_report_dependencies_flag_overwritten :
  Examples.chainDeps 2 = [] /\
  option_map (fun p => map (fun kv => (workspace (snd kv),
       dependenciesWereFresh (snd kv), filesWereFresh (snd kv)))
       (dependencies (fst p)))
    (Examples.exAudit Examples.chainDeps [2] 1)
    = Some [(2, Some false, Some false)].
Proof. split; vm_compute; reflexivity. Qed.
